(** * Repetition-code simulator: circuit builder, majority-vote decoder, statistics

    A shallow embedding of [src/repetition_code.py], [src/decoder.py], the
    rate estimators of [src/error_simulation.py] and the rate table of
    [src/analysis.py], followed by the properties of the circuit layout, of
    the decoder and of the syndrome statistics.

    Conventions.
    - Python integers are [Z]; [%] on a positive modulus is [Z.modulo].
    - Python floats are IEEE binary64 values, [PrimFloat.float].
    - A measurement row (a one-dimensional numpy array of bits) is a
      [list Z]; a sample matrix is the list of its rows, in shot order.
    - A raised exception is the [Raise] branch of [Py.result]. *)

From Stdlib Require Import ZArith List String Bool Lia Permutation.
From Stdlib Require Import PrimFloat Uint63.
Import ListNotations.
Local Open Scope Z_scope.

(* ================================================================== *)
(** ** Python runtime fragments used by the sources *)

Module Py.

Inductive exn : Type :=
| ValueError (msg : string)
| ZeroDivisionError (msg : string).

Inductive result (A : Type) : Type :=
| Ok (a : A)
| Raise (e : exn).

Arguments Ok {A} a.
Arguments Raise {A} e.

Definition bind {A B : Type} (r : result A) (k : A -> result B) : result B :=
  match r with
  | Ok a => k a
  | Raise e => Raise e
  end.

Notation "x <- c ;; k" := (bind c (fun x => k))
  (at level 61, c at next level, right associativity).

(** [len(l)] *)
Definition len {A : Type} (l : list A) : Z := Z.of_nat (List.length l).

(** [range(a, b)]: empty when [b <= a]. *)
Definition range (a b : Z) : list Z :=
  map (fun k => a + Z.of_nat k) (seq 0 (Z.to_nat (b - a))).

(** [for x in xs: body], the body threading the mutated object and able
    to raise; the first exception leaves the loop. *)
Fixpoint for_each {S X : Type} (xs : list X) (body : X -> S -> result S)
  (s : S) : result S :=
  match xs with
  | [] => Ok s
  | x :: xs' => s' <- body x s ;; for_each xs' body s'
  end.

(** The position a slice bound [n] denotes in a sequence of length [l]:
    a negative bound counts from the end, and the result is clamped. *)
Definition slice_bound (n l : Z) : nat :=
  Z.to_nat (if n <? 0 then Z.max 0 (l + n) else Z.min n l).

(** [l[:n]] *)
Definition slice_to {A : Type} (n : Z) (l : list A) : list A :=
  firstn (slice_bound n (len l)) l.

(** [l[n:]] *)
Definition slice_from {A : Type} (n : Z) (l : list A) : list A :=
  skipn (slice_bound n (len l)) l.

(** [max(items, key=lambda x: x[1])]: the running maximum is replaced only
    by an item whose key is strictly greater, so the first maximal item in
    iteration order wins; an empty sequence raises. *)
Fixpoint max_by_snd {K : Type} (best : K * Z) (items : list (K * Z)) : K * Z :=
  match items with
  | [] => best
  | x :: items' => max_by_snd (if snd x >? snd best then x else best) items'
  end.

Definition max_key_snd {K : Type} (items : list (K * Z)) : result (K * Z) :=
  match items with
  | [] => Raise (ValueError "max() arg is an empty sequence")
  | x :: items' => Ok (max_by_snd x items')
  end.

End Py.

Import Py.

(* ================================================================== *)
(** ** The circuit object of the [stim] library

    Only the interface the builder uses: a circuit is the ordered sequence
    of the operations appended to it.  The library checks the argument of a
    noise channel when the operation is appended; that check is not part of
    this repository and is a parameter, [valid_probability]. *)

Module stim.

Inductive Gate : Type := CNOT | H | R | M | X_ERROR | Z_ERROR.

Record Instruction : Type := mkInstruction {
  name : Gate;
  targets : list Z;
  arg : option float
}.

Definition Circuit : Type := list Instruction.

Definition Gate_eqb (g1 g2 : Gate) : bool :=
  match g1, g2 with
  | CNOT, CNOT | H, H | R, R | M, M | X_ERROR, X_ERROR | Z_ERROR, Z_ERROR => true
  | _, _ => false
  end.

Section Append.

Variable valid_probability : float -> bool.

(** [circuit.append(name, targets, arg)] *)
Definition append (circuit : Circuit) (name : Gate) (targets : list Z)
  (arg : option float) : result Circuit :=
  match arg with
  | None => Ok (circuit ++ [mkInstruction name targets None])
  | Some p =>
      if valid_probability p
      then Ok (circuit ++ [mkInstruction name targets (Some p)])
      else Raise (ValueError "noise channel argument is not a probability")
  end.

End Append.

(** Modelled from the spec: the argument check of the circuit library is
    not in the repository; the contract of the builder puts both
    probabilities in the closed interval from 0 to 1. *)
Definition probability_in_unit_interval (p : float) : bool :=
  PrimFloat.leb 0 p && PrimFloat.leb p 1.

(** The name under which the library knows a gate, as the sources pass it
    to [append]. *)
Definition gate_name (g : Gate) : string :=
  match g with
  | CNOT => "CNOT"
  | H => "H"
  | R => "R"
  | M => "M"
  | X_ERROR => "X_ERROR"
  | Z_ERROR => "Z_ERROR"
  end.

(** An operation without argument, by name: [circuit.append(name, targets)]. *)
Definition NamedOp : Type := (string * list Z)%type.

Definition append_named (circuit : list NamedOp) (name : string)
  (targets : list Z) : list NamedOp :=
  circuit ++ [(name, targets)].

End stim.

(* ================================================================== *)
(** ** [src/repetition_code.py] *)

Module repetition_code.

Import stim.

Record RepetitionCode : Type := mkRepetitionCode {
  code_distance : Z;
  num_qubits : Z;
  num_ancillas : Z;
  basis : string
}.

(** [RepetitionCode.__init__(self, code_distance, basis)] *)
Definition RepetitionCode_init (code_distance : Z) (basis : string)
  : result RepetitionCode :=
  if (code_distance <? 3) || (code_distance mod 2 =? 0)
  then Raise (ValueError "Code distance must be odd and >= 3")
  else if negb (existsb (String.eqb basis) ["z"%string; "x"%string])
  then Raise (ValueError "Basis must be 'z' or 'x'")
  else Ok {| code_distance := code_distance;
             num_qubits := code_distance;
             num_ancillas := code_distance - 1;
             basis := basis |}.

Section Builder.

Variable valid_probability : float -> bool.

Let append := stim.append valid_probability.

(** [RepetitionCode.create_syndrome_measurement_circuit] *)
Definition create_syndrome_measurement_circuit (self : RepetitionCode)
  (noise_prob measurement_noise : float) : result Circuit :=
  let circuit : Circuit := [] in
  (* 1. Encoding *)
  circuit <- for_each (range 1 (num_qubits self))
               (fun i circuit => append circuit CNOT [0; i] None) circuit ;;
  circuit <- (if String.eqb (basis self) "x"
              then for_each (range 0 (num_qubits self))
                     (fun i circuit => append circuit H [i] None) circuit
              else Ok circuit) ;;
  (* 2. Noise *)
  let noise_op := if String.eqb (basis self) "z" then X_ERROR else Z_ERROR in
  circuit <- (if PrimFloat.ltb 0 noise_prob
              then for_each (range 0 (num_qubits self))
                     (fun i circuit => append circuit noise_op [i] (Some noise_prob))
                     circuit
              else Ok circuit) ;;
  (* 3. Syndrome measurement *)
  let ancilla_offset := num_qubits self in
  circuit <- (if String.eqb (basis self) "x"
              then for_each (range 0 (num_qubits self))
                     (fun i circuit => append circuit H [i] None) circuit
              else Ok circuit) ;;
  circuit <- for_each (range 0 (num_ancillas self))
               (fun i circuit =>
                  circuit <- append circuit R [ancilla_offset + i] None ;;
                  circuit <- append circuit CNOT [i; ancilla_offset + i] None ;;
                  circuit <- append circuit CNOT [i + 1; ancilla_offset + i] None ;;
                  circuit <- (if PrimFloat.ltb 0 measurement_noise
                              then append circuit X_ERROR [ancilla_offset + i]
                                     (Some measurement_noise)
                              else Ok circuit) ;;
                  append circuit M [ancilla_offset + i] None)
               circuit ;;
  (* Final measurement of all data qubits *)
  circuit <- for_each (range 0 (num_qubits self))
               (fun i circuit => append circuit M [i] None) circuit ;;
  Ok circuit.

(** [RepetitionCode.create_full_circuit] *)
Definition create_full_circuit (self : RepetitionCode)
  (noise_prob measurement_noise : float) : result Circuit :=
  create_syndrome_measurement_circuit self noise_prob measurement_noise.

End Builder.

(** [RepetitionCode.get_num_measurements] *)
Definition get_num_measurements (self : RepetitionCode) : Z :=
  num_ancillas self + num_qubits self.

(** [RepetitionCode.create_encoding_circuit].  The gates are named by the
    strings of the source; none of them takes an argument, so no call of
    [append] can be refused. *)
Definition create_encoding_circuit (self : RepetitionCode)
  (initial_state : string) : list NamedOp :=
  let circuit : list NamedOp := [] in
  let circuit :=
    if String.eqb initial_state "1"
    then append_named circuit "X" [0] else circuit in
  let circuit :=
    fold_left (fun circuit i => append_named circuit "CNOT" [0; i])
      (range 1 (num_qubits self)) circuit in
  let circuit :=
    if String.eqb (basis self) "x"
    then fold_left (fun circuit i => append_named circuit "H" [i])
           (range 0 (num_qubits self)) circuit
    else circuit in
  circuit.

(** [create_repetition_code] *)
Definition create_repetition_code (code_distance : Z) (basis : string)
  : result RepetitionCode :=
  RepetitionCode_init code_distance basis.

(** The class [UnprotectedQubit]. *)
Module UnprotectedQubit.

Record UnprotectedQubit : Type := mkUnprotectedQubit {
  num_qubits : Z;
  basis : string
}.

(** [UnprotectedQubit.__init__]: the basis is stored as given. *)
Definition UnprotectedQubit_init (basis : string) : UnprotectedQubit :=
  {| num_qubits := 1; basis := basis |}.

Section Circuit.

Variable valid_probability : float -> bool.

Let append := stim.append valid_probability.

(** [UnprotectedQubit.create_circuit] *)
Definition create_circuit (self : UnprotectedQubit) (noise_prob : float)
  : result Circuit :=
  let circuit : Circuit := [] in
  circuit <- (if String.eqb (basis self) "x"
              then append circuit H [0] None else Ok circuit) ;;
  let noise_op := if String.eqb (basis self) "z" then X_ERROR else Z_ERROR in
  circuit <- (if PrimFloat.ltb 0 noise_prob
              then append circuit noise_op [0] (Some noise_prob)
              else Ok circuit) ;;
  circuit <- (if String.eqb (basis self) "x"
              then append circuit H [0] None else Ok circuit) ;;
  circuit <- append circuit M [0] None ;;
  Ok circuit.

End Circuit.

End UnprotectedQubit.

End repetition_code.

(* ================================================================== *)
(** ** [src/decoder.py] *)

Module decoder.

Record MajorityVoteDecoder : Type := mkMajorityVoteDecoder {
  code_distance : Z;
  num_syndrome_measurements : Z
}.

(** [MajorityVoteDecoder.__init__] *)
Definition MajorityVoteDecoder_init (code_distance : Z) : MajorityVoteDecoder :=
  {| code_distance := code_distance;
     num_syndrome_measurements := code_distance - 1 |}.

(** [np.sum] of a one-dimensional integer (or boolean) array.  The sum of
    a row of bits is at most its length, so the 64-bit accumulator of
    numpy never wraps on the rows handled here. *)
Definition np_sum (a : list Z) : Z := fold_right Z.add 0 a.

(** [MajorityVoteDecoder.decode] *)
Definition decode (self : MajorityVoteDecoder)
  (syndrome data_measurements : list Z) : Z :=
  let ones_count := np_sum data_measurements in
  let zeros_count := len data_measurements - ones_count in
  if ones_count >? zeros_count then 1 else 0.

(** [MajorityVoteDecoder.decode_with_syndrome] *)
Definition decode_with_syndrome (self : MajorityVoteDecoder)
  (syndrome data_measurements : list Z) : Z :=
  let corrected_data := data_measurements in
  decode self syndrome data_measurements.

(** [create_decoder] *)
Definition create_decoder (code_distance : Z) : MajorityVoteDecoder :=
  MajorityVoteDecoder_init code_distance.

(** [decode_samples] *)
Definition decode_samples (samples : list (list Z)) (code_distance : Z)
  : list Z :=
  let decoder := create_decoder code_distance in
  let num_syndrome := code_distance - 1 in
  fold_left
    (fun decoded_values sample =>
       let syndrome := slice_to num_syndrome sample in
       let data := slice_from num_syndrome sample in
       let decoded_value := decode decoder syndrome data in
       decoded_values ++ [decoded_value])
    samples [].

(** Conversion of a non-negative 64-bit integer count to binary64. *)
Definition float_of_count (n : Z) : float :=
  PrimFloat.of_uint63 (Uint63.of_Z n).

(** [a / b] where [a] is a numpy integer scalar: numpy's true division.
    Both operands are converted to binary64 and divided by the IEEE rule;
    a zero divisor gives an infinity or a NaN (with a runtime warning under
    numpy's default error state), never an exception. *)
Definition np_true_divide (a b : Z) : float :=
  PrimFloat.div (float_of_count a) (float_of_count b).

(** [np.sum(decoded_values != expected_value)] *)
Definition count_differing (decoded_values : list Z) (expected_value : Z) : Z :=
  np_sum (map (fun v => if v =? expected_value then 0 else 1) decoded_values).

(** [calculate_logical_error_rate] *)
Definition calculate_logical_error_rate (samples : list (list Z))
  (code_distance : Z) (expected_value : Z) : float :=
  let decoded_values := decode_samples samples code_distance in
  let errors := count_differing decoded_values expected_value in
  np_true_divide errors (len decoded_values).

(** A syndrome pattern, [tuple(sample[:num_syndrome])]. *)
Definition pattern : Type := list Z.

Definition pattern_eq_dec : forall p q : pattern, {p = q} + {p <> q} :=
  list_eq_dec Z.eq_dec.

(** A Python [dict] from patterns to counts.  Iteration follows insertion
    order, which [max] depends on, so the dictionary is the list of its
    items in that order. *)
Definition dict : Type := list (pattern * Z).

(** [d.get(k, default)] *)
Fixpoint dict_get (d : dict) (k : pattern) (default : Z) : Z :=
  match d with
  | [] => default
  | (k', v) :: d' => if pattern_eq_dec k k' then v else dict_get d' k default
  end.

(** [d[k] = v]: an existing key keeps its place, a new key goes last. *)
Fixpoint dict_set (d : dict) (k : pattern) (v : Z) : dict :=
  match d with
  | [] => [(k, v)]
  | (k', v') :: d' =>
      if pattern_eq_dec k k' then (k', v) :: d' else (k', v') :: dict_set d' k v
  end.

Record SyndromeStats : Type := mkSyndromeStats {
  patterns : dict;
  num_unique_patterns : Z;
  most_common : pattern * Z;
  total_samples : Z
}.

(** The loop of [analyze_syndrome_patterns] that fills [syndrome_counts]. *)
Definition count_syndromes (samples : list (list Z)) (num_syndrome : Z) : dict :=
  fold_left
    (fun syndrome_counts sample =>
       let syndrome := slice_to num_syndrome sample in
       dict_set syndrome_counts syndrome
         (dict_get syndrome_counts syndrome 0 + 1))
    samples [].

(** [analyze_syndrome_patterns] *)
Definition analyze_syndrome_patterns (samples : list (list Z))
  (code_distance : Z) : result SyndromeStats :=
  let num_syndrome := code_distance - 1 in
  let syndrome_counts := count_syndromes samples num_syndrome in
  let total_samples := len samples in
  most_common <- max_key_snd syndrome_counts ;;
  Ok {| patterns := syndrome_counts;
        num_unique_patterns := len syndrome_counts;
        most_common := most_common;
        total_samples := total_samples |}.

End decoder.

(* ================================================================== *)
(** ** [src/error_simulation.py]: the rate estimator of [ErrorSimulator] *)

Module error_simulation.

(** [a / b] on Python integers: a zero divisor raises. *)
Definition py_true_divide (a b : Z) : result float :=
  if b =? 0 then Raise (ZeroDivisionError "division by zero")
  else Ok (PrimFloat.div (decoder.float_of_count a) (decoder.float_of_count b)).

(** [ErrorSimulator.calculate_logical_error_rate] *)
Definition calculate_logical_error_rate (samples : list (list Z))
  (num_syndrome_measurements : Z)
  (decoder_func : list Z -> list Z -> Z) : result float :=
  let num_errors :=
    fold_left
      (fun num_errors sample =>
         let syndrome := slice_to num_syndrome_measurements sample in
         let data := slice_from num_syndrome_measurements sample in
         let corrected_value := decoder_func syndrome data in
         if negb (corrected_value =? 0) then num_errors + 1 else num_errors)
      samples 0 in
  py_true_divide num_errors (len samples).

(** [ErrorSimulator.calculate_physical_error_rate]: [np.sum] adds all the
    entries of the matrix, and the numpy integer it returns is divided by
    numpy's rule. *)
Definition calculate_physical_error_rate (samples : list (list Z)) : float :=
  let num_errors := decoder.np_sum (List.concat samples) in
  decoder.np_true_divide num_errors (len samples).

End error_simulation.

(* ================================================================== *)
(** ** [src/analysis.py]: the part that computes *)

Module analysis.

(** [calculate_error_rates_from_samples]: [zip] stops at the end of the
    shorter list. *)
Definition calculate_error_rates_from_samples
  (samples_list : list (list (list Z))) (code_distances : list Z)
  (expected_value : Z) : list float :=
  fold_left
    (fun error_rates sd =>
       let '(samples, distance) := sd in
       let rate :=
         decoder.calculate_logical_error_rate samples distance expected_value in
       error_rates ++ [rate])
    (combine samples_list code_distances) [].

End analysis.

(* ================================================================== *)
(** ** Vocabulary of the statements *)

(** A row of bits. *)
Definition bit_vector (l : list Z) : Prop := Forall (fun b => b = 0 \/ b = 1) l.

(** Number of ones and of zeros of a row. *)
Definition ones (l : list Z) : nat := count_occ Z.eq_dec l 1.
Definition zeros (l : list Z) : nat := count_occ Z.eq_dec l 0.

(** The qubits a circuit measures, in the order of the measurement slots. *)
Definition is_measure (i : stim.Instruction) : bool :=
  stim.Gate_eqb (stim.name i) stim.M.

Definition measured (c : stim.Circuit) : list Z :=
  flat_map (fun i => if is_measure i then stim.targets i else []) c.

(** The probabilistic-error instructions of a circuit, split by the qubits
    they act on: data qubits sit below [d], ancillas at [d] and above. *)
Definition is_noise (i : stim.Instruction) : bool :=
  match stim.name i with
  | stim.X_ERROR | stim.Z_ERROR => true
  | _ => false
  end.

Definition noise_instructions (c : stim.Circuit) : stim.Circuit :=
  filter is_noise c.

Definition data_noise (d : Z) (c : stim.Circuit) : stim.Circuit :=
  filter (fun i => is_noise i && forallb (fun q => q <? d) (stim.targets i)) c.

Definition readout_noise (d : Z) (c : stim.Circuit) : stim.Circuit :=
  filter (fun i => is_noise i && forallb (fun q => d <=? q) (stim.targets i)) c.

(** The instructions of the syndrome extraction that belong to ancilla
    [i] of a code of distance [d]: reset, two parity-entangle gates, the
    readout error when [measurement_noise] is positive, the measurement. *)
Definition ancilla_block (d : Z) (measurement_noise : float) (i : Z)
  : list stim.Instruction :=
  [stim.mkInstruction stim.R [d + i] None;
   stim.mkInstruction stim.CNOT [i; d + i] None;
   stim.mkInstruction stim.CNOT [i + 1; d + i] None]
  ++ (if PrimFloat.ltb 0 measurement_noise
      then [stim.mkInstruction stim.X_ERROR [d + i] (Some measurement_noise)]
      else [])
  ++ [stim.mkInstruction stim.M [d + i] None].

(** The instruction that sits right before the first measurement of qubit
    [q], if any. *)
Fixpoint before_measure (prev : option stim.Instruction) (c : stim.Circuit)
  (q : Z) : option stim.Instruction :=
  match c with
  | [] => None
  | i :: c' =>
      if is_measure i && existsb (Z.eqb q) (stim.targets i)
      then prev
      else before_measure (Some i) c' q
  end.

(** Appending a whole list of instructions, one [append] call each. *)
Definition append_all (valid_probability : float -> bool)
  (c : stim.Circuit) (l : list stim.Instruction) : result stim.Circuit :=
  for_each l
    (fun i c => stim.append valid_probability c
                  (stim.name i) (stim.targets i) (stim.arg i)) c.

(** Whether the circuit library takes an instruction. *)
Definition accepted (valid_probability : float -> bool)
  (i : stim.Instruction) : bool :=
  match stim.arg i with
  | None => true
  | Some p => valid_probability p
  end.

(** The calls of [append] that the builder makes, in program order. *)
Definition operations (self : repetition_code.RepetitionCode)
  (noise_prob measurement_noise : float) : list stim.Instruction :=
  let n := repetition_code.num_qubits self in
  let x_basis := String.eqb (repetition_code.basis self) "x" in
  let noise_op :=
    if String.eqb (repetition_code.basis self) "z"
    then stim.X_ERROR else stim.Z_ERROR in
  map (fun i => stim.mkInstruction stim.CNOT [0; i] None) (range 1 n)
  ++ (if x_basis
      then map (fun i => stim.mkInstruction stim.H [i] None) (range 0 n)
      else [])
  ++ (if PrimFloat.ltb 0 noise_prob
      then map (fun i => stim.mkInstruction noise_op [i] (Some noise_prob))
             (range 0 n)
      else [])
  ++ (if x_basis
      then map (fun i => stim.mkInstruction stim.H [i] None) (range 0 n)
      else [])
  ++ flat_map (ancilla_block n measurement_noise)
       (range 0 (repetition_code.num_ancillas self))
  ++ map (fun i => stim.mkInstruction stim.M [i] None) (range 0 n).

(** The first position of a pattern in a list of patterns (the length of
    the list when it does not occur). *)
Fixpoint first_index (p : decoder.pattern) (l : list decoder.pattern) : nat :=
  match l with
  | [] => O
  | q :: l' => if decoder.pattern_eq_dec p q then O else S (first_index p l')
  end.

(** The syndrome prefixes of the rows of a sample matrix, in row order. *)
Definition syndromes (samples : list (list Z)) (code_distance : Z)
  : list decoder.pattern :=
  map (slice_to (code_distance - 1)) samples.

(** The dictionary the counting loop reaches from [counts] after the
    patterns [l], one update per pattern. *)
Definition tally (counts : decoder.dict) (l : list decoder.pattern)
  : decoder.dict :=
  fold_left
    (fun counts p => decoder.dict_set counts p (decoder.dict_get counts p 0 + 1))
    l counts.

(** Number of occurrences of a pattern in a list of patterns. *)
Definition occurrences (l : list decoder.pattern) (p : decoder.pattern) : nat :=
  count_occ decoder.pattern_eq_dec l p.

(** The complement of a row of bits. *)
Definition complement (l : list Z) : list Z := map (fun b => 1 - b) l.

(** Number of entries of a row that differ from the value [b]. *)
Definition flipped (b : Z) (l : list Z) : nat :=
  List.length (filter (fun x => negb (x =? b)) l).

(** The value [decode_samples] computes for one row. *)
Definition decode_row (code_distance : Z) (sample : list Z) : Z :=
  decoder.decode (decoder.create_decoder code_distance)
    (slice_to (code_distance - 1) sample)
    (slice_from (code_distance - 1) sample).

(** An instruction as a named operation, its argument dropped. *)
Definition named (i : stim.Instruction) : stim.NamedOp :=
  (stim.gate_name (stim.name i), stim.targets i).


(** A circuit without its Hadamards. *)
Definition without_hadamards (c : stim.Circuit) : stim.Circuit :=
  filter (fun i => negb (stim.Gate_eqb (stim.name i) stim.H)) c.

(** An instruction with a phase-flip channel turned into the bit-flip
    channel of the same target and probability. *)
Definition as_bit_flip (i : stim.Instruction) : stim.Instruction :=
  match stim.name i with
  | stim.Z_ERROR => stim.mkInstruction stim.X_ERROR (stim.targets i) (stim.arg i)
  | _ => i
  end.

(* ================================================================== *)
(** ** The majority-vote decoder *)

Section DecoderFacts.

Import decoder.

Lemma np_sum_bits (l : list Z) :
  bit_vector l -> np_sum l = Z.of_nat (ones l).
Proof.
  unfold ones. induction 1 as [| b l Hb _ IH]; [reflexivity |].
  cbn [np_sum fold_right count_occ]. fold (np_sum l). rewrite IH.
  destruct Hb as [-> | ->]; destruct (Z.eq_dec _ 1); lia.
Qed.

Lemma len_bits (l : list Z) :
  bit_vector l -> len l = Z.of_nat (ones l) + Z.of_nat (zeros l).
Proof.
  unfold ones, zeros, len. induction 1 as [| b l Hb _ IH]; [reflexivity |].
  cbn [List.length count_occ].
  destruct Hb as [-> | ->];
    destruct (Z.eq_dec _ 1); destruct (Z.eq_dec _ 0); lia.
Qed.

(** C1. On a non-empty row of bits the decoder returns 1 when the ones
    strictly outnumber the zeros and 0 otherwise, whatever the syndrome;
    at distance 5, [1,1,0,0,0] decodes to 0 and [1,1,1,0,0] to 1. *)
Theorem decode_majority :
  (forall self syndrome data,
      data <> [] -> bit_vector data ->
      ((zeros data < ones data)%nat -> decode self syndrome data = 1) /\
      ((ones data <= zeros data)%nat -> decode self syndrome data = 0)) /\
  (forall self syndrome, decode self syndrome [1; 1; 0; 0; 0] = 0) /\
  (forall self syndrome, decode self syndrome [1; 1; 1; 0; 0] = 1).
Proof.
  split; [| split; reflexivity].
  intros self syndrome data _ Hbits. unfold decode.
  rewrite (len_bits data Hbits), (np_sum_bits data Hbits).
  split; intros Hcmp.
  - destruct (Z.gtb_spec (Z.of_nat (ones data))
                (Z.of_nat (ones data) + Z.of_nat (zeros data) - Z.of_nat (ones data)));
      [reflexivity | lia].
  - destruct (Z.gtb_spec (Z.of_nat (ones data))
                (Z.of_nat (ones data) + Z.of_nat (zeros data) - Z.of_nat (ones data)));
      [lia | reflexivity].
Qed.

Lemma decode_majority_witness :
  [1; 0; 1] <> [] /\ bit_vector [1; 0; 1] /\
  Nat.lt (zeros [1; 0; 1]) (ones [1; 0; 1]) /\
  decode (create_decoder 3) [1; 1] [1; 0; 1] = 1.
Proof.
  assert (Hne : [1; 0; 1] <> ([] : list Z)) by discriminate.
  assert (Hb : bit_vector [1; 0; 1]) by (repeat constructor; auto).
  assert (Hc : Nat.lt (zeros [1; 0; 1]) (ones [1; 0; 1])) by (vm_compute; lia).
  split; [exact Hne | split; [exact Hb | split; [exact Hc |]]].
  exact (proj1 (proj1 decode_majority (create_decoder 3) [1; 1] [1; 0; 1] Hne Hb) Hc).
Defined.

(** C5. The result of [decode] does not depend on the syndrome argument,
    and it is always 0 or 1. *)
Theorem decode_ignores_syndrome :
  forall self s1 s2 data,
    decode self s1 data = decode self s2 data /\
    (decode self s1 data = 0 \/ decode self s1 data = 1).
Proof.
  intros self s1 s2 data. split; [reflexivity |].
  unfold decode.
  destruct (np_sum data >? len data - np_sum data); [right | left]; reflexivity.
Qed.

(** C9. [decode_with_syndrome] returns exactly what [decode] returns. *)
Theorem decode_with_syndrome_is_decode :
  forall self syndrome data,
    decode_with_syndrome self syndrome data = decode self syndrome data.
Proof.
  intros self syndrome data. unfold decode_with_syndrome. reflexivity.
Qed.

(** C10. On the empty data vector [decode] does not fail and returns 0:
    zero ones do not strictly outnumber zero zeros. *)
Theorem decode_empty :
  forall self syndrome,
    decode self syndrome [] = 0 /\
    np_sum [] = 0 /\ len ([] : list Z) - np_sum [] = 0.
Proof.
  intros self syndrome. repeat split.
Qed.

End DecoderFacts.

(* ================================================================== *)
(** ** Loops, ranges and the circuit under construction *)

Section AppendFacts.

Import stim.

Variable valid_probability : float -> bool.

Lemma bind_ok_r {A : Type} (r : result A) : bind r (fun a => Ok a) = r.
Proof. destruct r; reflexivity. Qed.

Lemma bind_assoc {A B C : Type} (r : result A) (f : A -> result B)
  (g : B -> result C) :
  bind (bind r f) g = bind r (fun a => bind (f a) g).
Proof. destruct r; reflexivity. Qed.

Lemma append_all_nil (c : Circuit) : append_all valid_probability c [] = Ok c.
Proof. reflexivity. Qed.

Lemma append_all_app (l1 l2 : list Instruction) (c : Circuit) :
  append_all valid_probability c (l1 ++ l2) =
  bind (append_all valid_probability c l1)
       (fun c' => append_all valid_probability c' l2).
Proof.
  unfold append_all. revert c.
  induction l1 as [| i l1 IH]; intros c; cbn [app for_each]; [reflexivity |].
  rewrite bind_assoc. destruct (append _ c _ _ _) as [c' | e]; cbn [bind];
    [apply IH | reflexivity].
Qed.

Lemma for_each_ext {S X : Type} (xs : list X) (f g : X -> S -> result S) :
  (forall x s, f x s = g x s) ->
  forall s, for_each xs f s = for_each xs g s.
Proof.
  intros Hfg. induction xs as [| x xs IH]; intros s; cbn [for_each];
    [reflexivity |].
  rewrite Hfg. destruct (g x s); cbn [bind]; [apply IH | reflexivity].
Qed.

(** A loop whose body appends the instructions [f x] appends their
    concatenation. *)
Lemma for_each_append_all {X : Type} (f : X -> list Instruction)
  (xs : list X) (c : Circuit) :
  for_each xs (fun x c => append_all valid_probability c (f x)) c =
  append_all valid_probability c (flat_map f xs).
Proof.
  revert c. induction xs as [| x xs IH]; intros c; cbn [for_each flat_map];
    [reflexivity |].
  rewrite append_all_app.
  destruct (append_all _ c (f x)); cbn [bind]; [apply IH | reflexivity].
Qed.

Lemma flat_map_single {X Y : Type} (h : X -> Y) (xs : list X) :
  flat_map (fun x => [h x]) xs = map h xs.
Proof. induction xs; cbn; congruence. Qed.

(** A loop that appends one instruction per iteration. *)
Lemma for_each_append_one {X : Type} (g : Gate) (t : X -> list Z)
  (a : option float) (xs : list X) (c : Circuit) :
  for_each xs (fun x c => append valid_probability c g (t x) a) c =
  append_all valid_probability c (map (fun x => mkInstruction g (t x) a) xs).
Proof.
  rewrite <- flat_map_single, <- for_each_append_all.
  apply for_each_ext. intros x s. unfold append_all. cbn [for_each].
  cbn [name targets arg]. now rewrite bind_ok_r.
Qed.

Lemma accepted_append (c : Circuit) (i : Instruction) :
  append valid_probability c (name i) (targets i) (arg i) =
  if accepted valid_probability i then Ok (c ++ [i])
  else Raise (ValueError "noise channel argument is not a probability").
Proof.
  destruct i as [g t [p |]]; unfold accepted, append; cbn [name targets arg];
    reflexivity.
Qed.

(** What [append_all] returns: the extended circuit when every instruction
    is taken, the library's exception otherwise. *)
Lemma append_all_spec (l : list Instruction) (c : Circuit) :
  append_all valid_probability c l =
  if forallb (accepted valid_probability) l then Ok (c ++ l)
  else Raise (ValueError "noise channel argument is not a probability").
Proof.
  unfold append_all. revert c.
  induction l as [| i l IH]; intros c; cbn [for_each forallb].
  - now rewrite app_nil_r.
  - rewrite accepted_append.
    destruct (accepted valid_probability i); cbn [bind andb]; [| reflexivity].
    rewrite IH, <- app_assoc. reflexivity.
Qed.

Lemma append_all_ok (l : list Instruction) (c c' : Circuit) :
  append_all valid_probability c l = Ok c' -> c' = c ++ l.
Proof.
  rewrite append_all_spec.
  destruct (forallb _ l); [congruence | discriminate].
Qed.

Lemma append_all_rejected (l : list Instruction) (c : Circuit)
  (i : Instruction) :
  In i l -> accepted valid_probability i = false ->
  exists e, append_all valid_probability c l = Raise e.
Proof.
  intros Hin Hrej. rewrite append_all_spec.
  destruct (forallb _ l) eqn:Hall; [| eauto].
  rewrite forallb_forall in Hall. rewrite (Hall i Hin) in Hrej. discriminate.
Qed.

(** The body of the syndrome loop appends the block of its ancilla. *)
Lemma ancilla_body (n : Z) (mn : float) (i : Z) (c : Circuit) :
  (c1 <- append valid_probability c R [n + i] None ;;
   c2 <- append valid_probability c1 CNOT [i; n + i] None ;;
   c3 <- append valid_probability c2 CNOT [i + 1; n + i] None ;;
   c4 <- (if PrimFloat.ltb 0 mn
          then append valid_probability c3 X_ERROR [n + i] (Some mn)
          else Ok c3) ;;
   append valid_probability c4 M [n + i] None) =
  append_all valid_probability c (ancilla_block n mn i).
Proof.
  unfold ancilla_block, append_all.
  destruct (PrimFloat.ltb 0 mn); cbn [app for_each bind append name targets arg].
  - destruct (valid_probability mn); reflexivity.
  - reflexivity.
Qed.

(** The builder performs exactly the calls listed by [operations]. *)
Lemma builder_operations (self : repetition_code.RepetitionCode)
  (p mn : float) :
  repetition_code.create_syndrome_measurement_circuit valid_probability self p mn =
  append_all valid_probability [] (operations self p mn).
Proof.
  unfold repetition_code.create_syndrome_measurement_circuit, operations.
  cbv zeta.
  assert (Hif : forall (b : bool) (l : list Instruction) (c : Circuit),
             (if b then append_all valid_probability c l else Ok c) =
             append_all valid_probability c (if b then l else [])).
  { intros [|] l c; reflexivity. }
  do 4 (rewrite ?for_each_append_one, ?Hif, append_all_app;
        match goal with
        | |- bind ?r _ = bind ?r _ => destruct r; cbn [bind]; [| reflexivity]
        end).
  rewrite (for_each_ext _ _ _ (ancilla_body (repetition_code.num_qubits self) mn)).
  rewrite for_each_append_all, append_all_app.
  match goal with
  | |- bind ?r _ = bind ?r _ => destruct r; cbn [bind]; [| reflexivity]
  end.
  rewrite for_each_append_one. apply bind_ok_r.
Qed.

Lemma built_circuit (self : repetition_code.RepetitionCode) (p mn : float)
  (c : Circuit) :
  repetition_code.create_syndrome_measurement_circuit valid_probability self p mn = Ok c ->
  c = operations self p mn.
Proof.
  rewrite builder_operations. intros Hok.
  now apply append_all_ok in Hok.
Qed.

End AppendFacts.

(* ================================================================== *)
(** ** Construction of the code *)

Section CodeFacts.

Import repetition_code.

Lemma init_ok_inv (d : Z) (b : string) (self : RepetitionCode) :
  RepetitionCode_init d b = Ok self ->
  self = mkRepetitionCode d d (d - 1) b /\
  3 <= d /\ Z.odd d = true /\ (b = "z"%string \/ b = "x"%string).
Proof.
  unfold RepetitionCode_init.
  destruct (d <? 3) eqn:Hlt; cbn [orb]; [discriminate |].
  destruct (d mod 2 =? 0) eqn:Hmod; [discriminate |].
  cbn [existsb].
  destruct (String.eqb b "z") eqn:Hz; cbn [orb negb].
  - intros [= <-]. apply String.eqb_eq in Hz.
    apply Z.ltb_ge in Hlt. apply Z.eqb_neq in Hmod.
    rewrite Zmod_odd in Hmod. destruct (Z.odd d); [auto | congruence].
  - destruct (String.eqb b "x") eqn:Hx; cbn [orb negb]; [| discriminate].
    intros [= <-]. apply String.eqb_eq in Hx.
    apply Z.ltb_ge in Hlt. apply Z.eqb_neq in Hmod.
    rewrite Zmod_odd in Hmod. destruct (Z.odd d); [auto | congruence].
Qed.

(** C6. Constructing a code with a distance below 3, an even distance or
    a basis other than ["z"] and ["x"] raises [ValueError]; every odd
    distance of at least 3 with one of the two bases yields the code with
    [distance - 1] ancillas. *)
Theorem code_construction :
  forall (d : Z) (b : string),
    (d < 3 \/ Z.even d = true \/ (b <> "z"%string /\ b <> "x"%string) ->
     exists msg, RepetitionCode_init d b = Raise (ValueError msg)) /\
    (3 <= d -> Z.odd d = true -> b = "z"%string \/ b = "x"%string ->
     RepetitionCode_init d b = Ok (mkRepetitionCode d d (d - 1) b)).
Proof.
  intros d b. unfold RepetitionCode_init. split.
  - intros Hbad.
    destruct (d <? 3) eqn:Hlt; cbn [orb]; [eauto |].
    destruct (d mod 2 =? 0) eqn:Hmod; [eauto |].
    apply Z.ltb_ge in Hlt. apply Z.eqb_neq in Hmod. rewrite Zmod_even in Hmod.
    destruct Hbad as [Hbad | [Hbad | [Hz Hx]]]; [lia | | ].
    + rewrite Hbad in Hmod. congruence.
    + apply String.eqb_neq in Hz, Hx. cbn [existsb]. rewrite Hz, Hx.
      cbn [orb negb]. eauto.
  - intros Hge Hodd Hb.
    apply Z.ltb_ge in Hge. rewrite Hge. cbn [orb].
    rewrite Zmod_odd, Hodd. cbn [Z.eqb].
    destruct Hb as [-> | ->]; reflexivity.
Qed.

Lemma code_construction_witness :
  (exists msg, RepetitionCode_init 4 "z" = Raise (ValueError msg)) /\
  (exists msg, RepetitionCode_init 2 "z" = Raise (ValueError msg)) /\
  (exists msg, RepetitionCode_init 5 "y" = Raise (ValueError msg)) /\
  RepetitionCode_init 5 "x" = Ok (mkRepetitionCode 5 5 4 "x").
Proof.
  split; [| split; [| split]].
  - apply (proj1 (code_construction 4 "z")). right; left. reflexivity.
  - apply (proj1 (code_construction 2 "z")). left. lia.
  - apply (proj1 (code_construction 5 "y")). right; right.
    split; discriminate.
  - apply (proj2 (code_construction 5 "x")); [lia | reflexivity | now right].
Defined.

End CodeFacts.

(* ================================================================== *)
(** ** Ranges and the instructions selected from a circuit *)

Section RangeFacts.

Import stim.

Lemma In_range (a b i : Z) : In i (range a b) <-> a <= i < b.
Proof.
  unfold range. rewrite in_map_iff. split.
  - intros (k & <- & Hk). apply in_seq in Hk. lia.
  - intros Hi. exists (Z.to_nat (i - a)). split; [lia |].
    apply in_seq. lia.
Qed.

Lemma length_range (a b : Z) : List.length (range a b) = Z.to_nat (b - a).
Proof. unfold range. now rewrite length_map, length_seq. Qed.

Lemma flat_map_ext_In {X Y : Type} (f g : X -> list Y) (xs : list X) :
  (forall x, In x xs -> f x = g x) -> flat_map f xs = flat_map g xs.
Proof.
  induction xs as [| x xs IH]; intros Hfg; cbn [flat_map]; [reflexivity |].
  rewrite Hfg by now left. rewrite IH; [reflexivity |].
  intros y Hy. apply Hfg. now right.
Qed.

Lemma flat_map_empty {X Y : Type} (xs : list X) :
  flat_map (fun _ : X => @nil Y) xs = [].
Proof. induction xs; cbn; auto. Qed.

Lemma filter_flat_map {X Y : Type} (f : Y -> bool) (g : X -> list Y)
  (xs : list X) :
  filter f (flat_map g xs) = flat_map (fun x => filter f (g x)) xs.
Proof.
  induction xs as [| x xs IH]; cbn [flat_map filter]; [reflexivity |].
  now rewrite filter_app, IH.
Qed.

Lemma filter_map_flat {X Y : Type} (f : Y -> bool) (h : X -> Y) (xs : list X) :
  filter f (map h xs) = flat_map (fun x => if f (h x) then [h x] else []) xs.
Proof.
  induction xs as [| x xs IH]; cbn [map filter flat_map]; [reflexivity |].
  rewrite IH. destruct (f (h x)); reflexivity.
Qed.

Lemma measured_app (c1 c2 : Circuit) :
  measured (c1 ++ c2) = measured c1 ++ measured c2.
Proof. apply flat_map_app. Qed.

Lemma measured_map (X : Type) (h : X -> Instruction) (xs : list X) :
  measured (map h xs) =
  flat_map (fun x => if is_measure (h x) then targets (h x) else []) xs.
Proof. unfold measured. now rewrite flat_map_concat_map, map_map, <- flat_map_concat_map. Qed.

Lemma measured_flat_map (X : Type) (g : X -> list Instruction) (xs : list X) :
  measured (flat_map g xs) = flat_map (fun x => measured (g x)) xs.
Proof.
  induction xs as [| x xs IH]; cbn [flat_map]; [reflexivity |].
  now rewrite measured_app, IH.
Qed.

Lemma measured_ancilla_block (n : Z) (mn : float) (i : Z) :
  measured (ancilla_block n mn i) = [n + i].
Proof. unfold ancilla_block. destruct (PrimFloat.ltb 0 mn); reflexivity. Qed.

Lemma measured_if (b : bool) (c : Circuit) :
  measured (if b then c else []) = if b then measured c else [].
Proof. destruct b; reflexivity. Qed.

End RangeFacts.

(* ================================================================== *)
(** ** Layout of the built circuit *)

Section CircuitFacts.

Import stim repetition_code.

(** The instructions emitted before the syndrome extraction: encoding,
    basis rotation, data noise, second rotation. *)
Lemma operations_split (d : Z) (b : string) (p mn : float) :
  exists setup,
    measured setup = [] /\
    (forall i, In i setup -> is_noise i = true ->
               PrimFloat.ltb 0 p = true /\
               exists q, In q (range 0 d) /\
                 i = mkInstruction
                       (if String.eqb b "z" then X_ERROR else Z_ERROR)
                       [q] (Some p)) /\
    operations (mkRepetitionCode d d (d - 1) b) p mn =
    setup ++ flat_map (ancilla_block d mn) (range 0 (d - 1))
          ++ map (fun q => mkInstruction M [q] None) (range 0 d).
Proof.
  unfold operations. cbn [num_qubits num_ancillas basis].
  exists (map (fun i => mkInstruction CNOT [0; i] None) (range 1 d)
          ++ (if String.eqb b "x"
              then map (fun i => mkInstruction H [i] None) (range 0 d) else [])
          ++ (if PrimFloat.ltb 0 p
              then map (fun i => mkInstruction
                                   (if String.eqb b "z" then X_ERROR else Z_ERROR)
                                   [i] (Some p)) (range 0 d)
              else [])
          ++ (if String.eqb b "x"
              then map (fun i => mkInstruction H [i] None) (range 0 d) else [])).
  split; [| split].
  - rewrite !measured_app, !measured_if, !measured_map.
    destruct (String.eqb b "z"); cbn [is_measure name Gate_eqb targets];
      rewrite !flat_map_empty;
      destruct (String.eqb b "x"), (PrimFloat.ltb 0 p); reflexivity.
  - intros i Hin Hnoise. rewrite !in_app_iff in Hin.
    destruct Hin as [Hin | [Hin | [Hin | Hin]]].
    + apply in_map_iff in Hin. destruct Hin as (q & <- & _). discriminate.
    + destruct (String.eqb b "x"); [| contradiction].
      apply in_map_iff in Hin. destruct Hin as (q & <- & _). discriminate.
    + destruct (PrimFloat.ltb 0 p); [| contradiction].
      apply in_map_iff in Hin. destruct Hin as (q & <- & Hq). eauto.
    + destruct (String.eqb b "x"); [| contradiction].
      apply in_map_iff in Hin. destruct Hin as (q & <- & _). discriminate.
  - now rewrite <- !app_assoc.
Qed.

(** The noise instructions of the program, selected by their targets. *)
Lemma filter_noise_operations (g : list Z -> bool) (d : Z) (b : string)
  (p mn : float) :
  filter (fun i => is_noise i && g (targets i))
    (operations (mkRepetitionCode d d (d - 1) b) p mn) =
  (if PrimFloat.ltb 0 p
   then flat_map
          (fun q => if g [q]
                    then [mkInstruction
                            (if String.eqb b "z" then X_ERROR else Z_ERROR)
                            [q] (Some p)]
                    else []) (range 0 d)
   else [])
  ++ (if PrimFloat.ltb 0 mn
      then flat_map
             (fun i => if g [d + i]
                       then [mkInstruction X_ERROR [d + i] (Some mn)]
                       else []) (range 0 (d - 1))
      else []).
Proof.
  unfold operations. cbn [num_qubits num_ancillas basis].
  rewrite !filter_app, filter_flat_map.
  assert (Hif : forall (c : bool) (l : Circuit),
             filter (fun i => is_noise i && g (targets i)) (if c then l else []) =
             if c then filter (fun i => is_noise i && g (targets i)) l else []).
  { intros [|] l; reflexivity. }
  rewrite !Hif, !filter_map_flat.
  unfold ancilla_block.
  destruct (String.eqb b "z"), (String.eqb b "x"), (PrimFloat.ltb 0 p),
    (PrimFloat.ltb 0 mn);
    cbn [filter app is_noise name targets andb];
    rewrite ?flat_map_empty, ?app_nil_r; cbn [app];
    try reflexivity;
    apply flat_map_ext; intros i; destruct (g [d + i]); reflexivity.
Qed.

Lemma data_noise_operations (d : Z) (b : string) (p mn : float) :
  data_noise d (operations (mkRepetitionCode d d (d - 1) b) p mn) =
  if PrimFloat.ltb 0 p
  then map (fun q => mkInstruction
                       (if String.eqb b "z" then X_ERROR else Z_ERROR)
                       [q] (Some p)) (range 0 d)
  else [].
Proof.
  unfold data_noise.
  rewrite (filter_noise_operations (forallb (fun q => q <? d))).
  replace (if PrimFloat.ltb 0 mn then _ else _) with (@nil Instruction).
  - rewrite app_nil_r. destruct (PrimFloat.ltb 0 p); [| reflexivity].
    rewrite <- flat_map_single. apply flat_map_ext_In.
    intros q Hq. apply In_range in Hq. cbn [forallb].
    replace (q <? d) with true by (symmetry; apply Z.ltb_lt; lia). reflexivity.
  - destruct (PrimFloat.ltb 0 mn); [| reflexivity].
    symmetry. etransitivity; [| apply (flat_map_empty (range 0 (d - 1)))].
    apply flat_map_ext_In. intros i Hi. apply In_range in Hi. cbn [forallb].
    replace (d + i <? d) with false by (symmetry; apply Z.ltb_ge; lia).
    reflexivity.
Qed.

Lemma readout_noise_operations (d : Z) (b : string) (p mn : float) :
  readout_noise d (operations (mkRepetitionCode d d (d - 1) b) p mn) =
  if PrimFloat.ltb 0 mn
  then map (fun i => mkInstruction X_ERROR [d + i] (Some mn)) (range 0 (d - 1))
  else [].
Proof.
  unfold readout_noise.
  rewrite (filter_noise_operations (forallb (fun q => d <=? q))).
  replace (if PrimFloat.ltb 0 p then _ else _) with (@nil Instruction).
  - cbn [app]. destruct (PrimFloat.ltb 0 mn); [| reflexivity].
    rewrite <- flat_map_single. apply flat_map_ext_In.
    intros i Hi. apply In_range in Hi. cbn [forallb].
    replace (d <=? d + i) with true by (symmetry; apply Z.leb_le; lia).
    reflexivity.
  - destruct (PrimFloat.ltb 0 p); [| reflexivity].
    symmetry. etransitivity; [| apply (flat_map_empty (range 0 d))].
    apply flat_map_ext_In. intros q Hq. apply In_range in Hq. cbn [forallb].
    replace (d <=? q) with false by (symmetry; apply Z.leb_gt; lia).
    reflexivity.
Qed.

Lemma noise_instructions_operations (d : Z) (b : string) (p mn : float) :
  noise_instructions (operations (mkRepetitionCode d d (d - 1) b) p mn) =
  data_noise d (operations (mkRepetitionCode d d (d - 1) b) p mn)
  ++ readout_noise d (operations (mkRepetitionCode d d (d - 1) b) p mn).
Proof.
  rewrite data_noise_operations, readout_noise_operations.
  unfold noise_instructions.
  rewrite (filter_ext is_noise (fun i => is_noise i && (fun _ => true) (targets i)))
    by (intros i; now rewrite andb_true_r).
  rewrite (filter_noise_operations (fun _ => true)).
  now rewrite !flat_map_single.
Qed.

(** Ancilla [i] is measured right after its readout error when there is
    one. *)
Lemma readout_then_measure (d : Z) (mn : float) (i : Z)
  (setup final : Circuit) :
  PrimFloat.ltb 0 mn = true -> 0 <= i < d - 1 ->
  exists pre post,
    setup ++ flat_map (ancilla_block d mn) (range 0 (d - 1)) ++ final =
    pre ++ [mkInstruction X_ERROR [d + i] (Some mn);
            mkInstruction M [d + i] None] ++ post.
Proof.
  intros Hmn Hi. apply In_range in Hi. apply in_split in Hi.
  destruct Hi as (l1 & l2 & ->).
  rewrite flat_map_app. cbn [flat_map]. unfold ancilla_block at 2.
  rewrite Hmn.
  exists (setup ++ flat_map (ancilla_block d mn) l1
          ++ [mkInstruction R [d + i] None;
              mkInstruction CNOT [i; d + i] None;
              mkInstruction CNOT [i + 1; d + i] None]),
         (flat_map (ancilla_block d mn) l2 ++ final).
  rewrite <- !app_assoc. reflexivity.
Qed.

(** C2 (as the code has it). In every built circuit the measurement slots
    are the ancillas [distance + 0 .. distance + numAncillas - 1] in index
    order followed by the data qubits [0 .. distance - 1] in index order,
    and there are [numAncillas + distance] of them.  Nothing is measured
    before the syndrome extraction, which is the sequence of the ancilla
    blocks: each ancilla is measured at the end of its own block, after its
    reset and its two parity-entangle gates, with the readout-error
    instruction in between exactly when the measurement noise is
    positive. *)
Theorem measurement_order :
  forall valid_probability d b p mn self c,
    RepetitionCode_init d b = Ok self ->
    create_syndrome_measurement_circuit valid_probability self p mn = Ok c ->
    measured c = map (fun i => d + i) (range 0 (d - 1)) ++ range 0 d /\
    len (measured c) = get_num_measurements self /\
    exists setup,
      measured setup = [] /\
      c = setup ++ flat_map (ancilla_block d mn) (range 0 (d - 1))
                ++ map (fun q => mkInstruction M [q] None) (range 0 d).
Proof.
  intros vp d b p mn self c Hinit Hbuild.
  apply init_ok_inv in Hinit. destruct Hinit as (-> & Hd & _ & _).
  apply built_circuit in Hbuild.
  destruct (operations_split d b p mn) as (setup & Hsetup & _ & Hops).
  rewrite Hops in Hbuild. subst c.
  assert (Hm : measured
                 (setup ++ flat_map (ancilla_block d mn) (range 0 (d - 1))
                        ++ map (fun q => mkInstruction M [q] None) (range 0 d)) =
               map (fun i => d + i) (range 0 (d - 1)) ++ range 0 d).
  { rewrite !measured_app, Hsetup, measured_flat_map, measured_map.
    cbn [app is_measure name Gate_eqb targets].
    rewrite (flat_map_ext _ _ (measured_ancilla_block d mn)).
    rewrite !flat_map_single, map_id. reflexivity. }
  split; [exact Hm | split].
  - rewrite Hm. unfold len, get_num_measurements. cbn [num_ancillas num_qubits].
    rewrite length_app, length_map, !length_range. lia.
  - exists setup. split; [exact Hsetup | reflexivity].
Qed.

Lemma measurement_order_witness :
  RepetitionCode_init 3 "x" = Ok (mkRepetitionCode 3 3 2 "x") /\
  exists c,
    create_syndrome_measurement_circuit probability_in_unit_interval
      (mkRepetitionCode 3 3 2 "x") 0.125 0.25 = Ok c /\
    measured c = [3; 4; 0; 1; 2].
Proof.
  split; [reflexivity |].
  eexists. split; [reflexivity |].
  exact (proj1 (measurement_order probability_in_unit_interval 3 "x"
                  0.125%float 0.25%float _ _ eq_refl eq_refl)).
Defined.

(** C2, as stated, fails when the measurement noise is positive: at
    distance 3 in the Z basis with measurement noise 0.25 the instruction
    right before the measurement of ancilla 3 is its readout error, not
    its second parity-entangle gate. *)
Lemma measurement_not_right_after_gates :
  RepetitionCode_init 3 "z" = Ok (mkRepetitionCode 3 3 2 "z") /\
  create_syndrome_measurement_circuit probability_in_unit_interval
    (mkRepetitionCode 3 3 2 "z") 0 0.25 =
  Ok [mkInstruction CNOT [0; 1] None; mkInstruction CNOT [0; 2] None;
      mkInstruction R [3] None; mkInstruction CNOT [0; 3] None;
      mkInstruction CNOT [1; 3] None;
      mkInstruction X_ERROR [3] (Some 0.25%float);
      mkInstruction M [3] None;
      mkInstruction R [4] None; mkInstruction CNOT [1; 4] None;
      mkInstruction CNOT [2; 4] None;
      mkInstruction X_ERROR [4] (Some 0.25%float);
      mkInstruction M [4] None;
      mkInstruction M [0] None; mkInstruction M [1] None;
      mkInstruction M [2] None] /\
  forall c,
    create_syndrome_measurement_circuit probability_in_unit_interval
      (mkRepetitionCode 3 3 2 "z") 0 0.25 = Ok c ->
    before_measure None c 3 = Some (mkInstruction X_ERROR [3] (Some 0.25%float)) /\
    before_measure None c 3 <> Some (mkInstruction CNOT [1; 3] None).
Proof.
  split; [reflexivity | split; [reflexivity |]].
  intros c [= <-]. split; [reflexivity | discriminate].
Qed.

(** C7. In every built circuit the noise instructions are those on the
    data qubits followed by those on the ancillas.  With a positive
    [noise_prob] there is exactly one per data qubit, in index order: a
    bit-flip channel [X_ERROR] for the Z-basis code, a phase-flip channel
    [Z_ERROR] for the X-basis code; with [noise_prob] equal to 0 there is
    none.  With a positive [measurement_noise] there is exactly one
    [X_ERROR] per ancilla, placed right before the measurement of that
    ancilla; with [measurement_noise] equal to 0 there is none. *)
Theorem noise_injection :
  forall valid_probability d b p mn self c,
    RepetitionCode_init d b = Ok self ->
    create_syndrome_measurement_circuit valid_probability self p mn = Ok c ->
    noise_instructions c = data_noise d c ++ readout_noise d c /\
    (PrimFloat.ltb 0 p = true ->
     (b = "z"%string ->
      data_noise d c =
      map (fun q => mkInstruction X_ERROR [q] (Some p)) (range 0 d)) /\
     (b = "x"%string ->
      data_noise d c =
      map (fun q => mkInstruction Z_ERROR [q] (Some p)) (range 0 d))) /\
    (p = 0%float -> data_noise d c = []) /\
    (PrimFloat.ltb 0 mn = true ->
     readout_noise d c =
     map (fun i => mkInstruction X_ERROR [d + i] (Some mn)) (range 0 (d - 1)) /\
     forall i, 0 <= i < d - 1 ->
       exists pre post,
         c = pre ++ [mkInstruction X_ERROR [d + i] (Some mn);
                     mkInstruction M [d + i] None] ++ post) /\
    (mn = 0%float -> readout_noise d c = []).
Proof.
  intros vp d b p mn self c Hinit Hbuild.
  apply init_ok_inv in Hinit. destruct Hinit as (-> & _ & _ & _).
  apply built_circuit in Hbuild. subst c.
  split; [apply noise_instructions_operations |].
  rewrite data_noise_operations, readout_noise_operations.
  split; [| split; [| split]].
  - intros ->. split; intros ->; reflexivity.
  - intros ->. reflexivity.
  - intros Hmn. rewrite Hmn. split; [reflexivity |].
    intros i Hi.
    destruct (operations_split d b p mn) as (setup & _ & _ & ->).
    now apply readout_then_measure.
  - intros ->. reflexivity.
Qed.

Lemma noise_injection_witness :
  RepetitionCode_init 3 "x" = Ok (mkRepetitionCode 3 3 2 "x") /\
  PrimFloat.ltb 0 0.125 = true /\ PrimFloat.ltb 0 0.25 = true /\
  exists c,
    create_syndrome_measurement_circuit probability_in_unit_interval
      (mkRepetitionCode 3 3 2 "x") 0.125 0.25 = Ok c /\
    data_noise 3 c =
    [mkInstruction Z_ERROR [0] (Some 0.125%float);
     mkInstruction Z_ERROR [1] (Some 0.125%float);
     mkInstruction Z_ERROR [2] (Some 0.125%float)] /\
    readout_noise 3 c =
    [mkInstruction X_ERROR [3] (Some 0.25%float);
     mkInstruction X_ERROR [4] (Some 0.25%float)].
Proof.
  split; [reflexivity | split; [reflexivity | split; [reflexivity |]]].
  eexists. split; [reflexivity |].
  pose proof (noise_injection probability_in_unit_interval 3 "x"
                0.125%float 0.25%float _ _ eq_refl eq_refl)
    as (_ & Hdata & _ & Hreadout & _).
  split.
  - exact (proj2 (Hdata eq_refl) eq_refl).
  - exact (proj1 (Hreadout eq_refl)).
Defined.

Lemma operations_args (self : RepetitionCode) (p mn : float)
  (i : Instruction) :
  In i (operations self p mn) ->
  arg i = None \/
  (arg i = Some p /\ PrimFloat.ltb 0 p = true) \/
  (arg i = Some mn /\ PrimFloat.ltb 0 mn = true).
Proof.
  unfold operations. rewrite !in_app_iff.
  intros [Hin | [Hin | [Hin | [Hin | [Hin | Hin]]]]].
  - apply in_map_iff in Hin. destruct Hin as (q & <- & _). now left.
  - destruct (String.eqb _ "x"); [| contradiction].
    apply in_map_iff in Hin. destruct Hin as (q & <- & _). now left.
  - destruct (PrimFloat.ltb 0 p); [| contradiction].
    apply in_map_iff in Hin. destruct Hin as (q & <- & _). right; left. auto.
  - destruct (String.eqb _ "x"); [| contradiction].
    apply in_map_iff in Hin. destruct Hin as (q & <- & _). now left.
  - apply in_flat_map in Hin. destruct Hin as (q & _ & Hin).
    unfold ancilla_block in Hin.
    destruct (PrimFloat.ltb 0 mn); cbn [app In] in Hin;
      repeat (destruct Hin as [<- | Hin]; [auto |]); contradiction.
  - apply in_map_iff in Hin. destruct Hin as (q & <- & _). now left.
Qed.

(** C4 (as the code has it). The builder checks neither probability.
    A [noise_prob] or [measurement_noise] that is not greater than 0, any
    negative value included, raises nothing and gives the circuit of the
    value 0.  A positive value goes unchecked to the circuit library:
    the call returns a circuit when the library takes every positive
    value passed, and raises the library's exception, returning no
    circuit, when the library rejects one. *)
Theorem probabilities_not_validated :
  forall valid_probability d b p mn self,
    RepetitionCode_init d b = Ok self ->
    (PrimFloat.ltb 0 p = false ->
     create_syndrome_measurement_circuit valid_probability self p mn =
     create_syndrome_measurement_circuit valid_probability self 0 mn) /\
    (PrimFloat.ltb 0 mn = false ->
     create_syndrome_measurement_circuit valid_probability self p mn =
     create_syndrome_measurement_circuit valid_probability self p 0) /\
    (PrimFloat.ltb 0 p = false \/ valid_probability p = true ->
     PrimFloat.ltb 0 mn = false \/ valid_probability mn = true ->
     exists c,
       create_syndrome_measurement_circuit valid_probability self p mn = Ok c) /\
    (PrimFloat.ltb 0 p = true -> valid_probability p = false ->
     exists e,
       create_syndrome_measurement_circuit valid_probability self p mn = Raise e) /\
    (PrimFloat.ltb 0 mn = true -> valid_probability mn = false ->
     exists e,
       create_syndrome_measurement_circuit valid_probability self p mn = Raise e).
Proof.
  intros vp d b p mn self Hinit.
  apply init_ok_inv in Hinit. destruct Hinit as (-> & Hd & _ & _).
  rewrite !builder_operations.
  split; [| split; [| split; [| split]]].
  - intros Hp. unfold operations. rewrite Hp. reflexivity.
  - intros Hmn. unfold operations, ancilla_block. rewrite Hmn. reflexivity.
  - intros Hp Hmn. rewrite append_all_spec.
    replace (forallb (accepted vp) _) with true; [eauto |].
    symmetry. apply forallb_forall. intros i Hi.
    apply operations_args in Hi. unfold accepted.
    destruct Hi as [-> | [[-> Hpos] | [-> Hpos]]]; [reflexivity | |].
    + destruct Hp; congruence.
    + destruct Hmn; congruence.
  - intros Hp Hrej.
    apply (append_all_rejected vp _ _
             (mkInstruction (if String.eqb b "z" then X_ERROR else Z_ERROR)
                [0] (Some p))); [| exact Hrej].
    unfold operations. cbn [num_qubits num_ancillas basis]. rewrite Hp.
    rewrite !in_app_iff. right; right; left.
    apply in_map_iff. exists 0. split; [reflexivity |]. apply In_range. lia.
  - intros Hmn Hrej.
    apply (append_all_rejected vp _ _
             (mkInstruction X_ERROR [d + 0] (Some mn))); [| exact Hrej].
    unfold operations. cbn [num_qubits num_ancillas basis].
    rewrite !in_app_iff. right; right; right; right; left.
    apply in_flat_map. exists 0. split; [apply In_range; lia |].
    unfold ancilla_block. rewrite Hmn. cbn. auto.
Qed.

Lemma probabilities_not_validated_witness :
  RepetitionCode_init 3 "z" = Ok (mkRepetitionCode 3 3 2 "z") /\
  PrimFloat.ltb 0 (-0.5) = false /\
  create_syndrome_measurement_circuit probability_in_unit_interval
    (mkRepetitionCode 3 3 2 "z") (-0.5) 0.25 =
  create_syndrome_measurement_circuit probability_in_unit_interval
    (mkRepetitionCode 3 3 2 "z") 0 0.25 /\
  PrimFloat.ltb 0 1.5 = true /\
  probability_in_unit_interval 1.5 = false /\
  exists e,
    create_syndrome_measurement_circuit probability_in_unit_interval
      (mkRepetitionCode 3 3 2 "z") 0.25 1.5 = Raise e.
Proof.
  pose proof (probabilities_not_validated probability_in_unit_interval 3 "z"
                (-0.5)%float 0.25%float _ eq_refl) as (Hneg & _).
  pose proof (probabilities_not_validated probability_in_unit_interval 3 "z"
                0.25%float 1.5%float _ eq_refl) as (_ & _ & _ & _ & Hbig).
  split; [reflexivity | split; [reflexivity | split; [exact (Hneg eq_refl) |]]].
  split; [reflexivity | split; [reflexivity | exact (Hbig eq_refl eq_refl)]].
Defined.

(** C4, as stated, fails: a negative noise probability or a negative
    measurement noise, both outside the unit interval, is not reported;
    the builder returns the noise-free circuit. *)
Lemma negative_probability_builds_a_circuit :
  RepetitionCode_init 3 "z" = Ok (mkRepetitionCode 3 3 2 "z") /\
  probability_in_unit_interval (-0.5) = false /\
  create_syndrome_measurement_circuit probability_in_unit_interval
    (mkRepetitionCode 3 3 2 "z") (-0.5) 0 =
  Ok [mkInstruction CNOT [0; 1] None; mkInstruction CNOT [0; 2] None;
      mkInstruction R [3] None; mkInstruction CNOT [0; 3] None;
      mkInstruction CNOT [1; 3] None; mkInstruction M [3] None;
      mkInstruction R [4] None; mkInstruction CNOT [1; 4] None;
      mkInstruction CNOT [2; 4] None; mkInstruction M [4] None;
      mkInstruction M [0] None; mkInstruction M [1] None;
      mkInstruction M [2] None] /\
  create_syndrome_measurement_circuit probability_in_unit_interval
    (mkRepetitionCode 3 3 2 "z") 0 (-0.5) =
  create_syndrome_measurement_circuit probability_in_unit_interval
    (mkRepetitionCode 3 3 2 "z") (-0.5) 0.
Proof.
  repeat split.
Qed.

End CircuitFacts.

(* ================================================================== *)
(** ** The logical error rate *)

Section RateFacts.

(** C3. Over zero shots the estimator of [decoder.py] does not fail: no
    row is decoded, the count of errors is 0, and numpy's division of 0 by
    0 returns NaN.  The estimator of [ErrorSimulator], which divides two
    Python integers, raises [ZeroDivisionError] on the same input. *)
Theorem error_rate_of_no_shots :
  forall (d expected : Z),
    decoder.decode_samples [] d = [] /\
    decoder.count_differing (decoder.decode_samples [] d) expected = 0 /\
    PrimFloat.is_nan (decoder.calculate_logical_error_rate [] d expected) = true /\
    forall n f,
      error_simulation.calculate_logical_error_rate [] n f =
      Raise (ZeroDivisionError "division by zero").
Proof.
  intros d expected. repeat split.
Qed.

End RateFacts.

(* ================================================================== *)
(** ** Syndrome statistics *)

Section DictFacts.

Import decoder.

Lemma dict_get_set (D : dict) (k k' : pattern) (v dflt : Z) :
  dict_get (dict_set D k v) k' dflt =
  if pattern_eq_dec k' k then v else dict_get D k' dflt.
Proof.
  induction D as [| [k0 v0] D IH]; cbn [dict_set dict_get].
  - reflexivity.
  - destruct (pattern_eq_dec k k0) as [-> | Hk]; cbn [dict_get].
    + destruct (pattern_eq_dec k' k0); reflexivity.
    + rewrite IH. destruct (pattern_eq_dec k' k0) as [-> | Hk'];
        [| reflexivity].
      destruct (pattern_eq_dec k0 k); [congruence | reflexivity].
Qed.

Lemma keys_dict_set (D : dict) (k : pattern) (v : Z) :
  map fst (dict_set D k v) =
  if in_dec pattern_eq_dec k (map fst D) then map fst D
  else map fst D ++ [k].
Proof.
  induction D as [| [k0 v0] D IH]; cbn [dict_set map fst].
  - destruct (in_dec _ _ _) as [[] |]; reflexivity.
  - destruct (pattern_eq_dec k k0) as [-> | Hk]; cbn [map fst].
    + clear IH.
      destruct (in_dec pattern_eq_dec k0 (k0 :: map fst D)) as [| Hn];
        [reflexivity |].
      exfalso. apply Hn. now left.
    + rewrite IH.
      destruct (in_dec pattern_eq_dec k (map fst D)) as [Hin | Hn];
        destruct (in_dec pattern_eq_dec k (k0 :: map fst D)) as [Hin' | Hn'];
        cbn [app]; try reflexivity.
      * exfalso. apply Hn'. now right.
      * exfalso. destruct Hin' as [-> | Hin']; [now apply Hk | now apply Hn].
Qed.

Lemma In_dict_get (D : dict) (p : pattern) (n dflt : Z) :
  NoDup (map fst D) -> In (p, n) D -> dict_get D p dflt = n.
Proof.
  induction D as [| [k0 v0] D IH]; cbn [map fst dict_get];
    intros Hnd Hin; [contradiction |].
  inversion Hnd as [| ? ? Hnotin Hnd']; subst.
  destruct Hin as [[= -> ->] | Hin].
  - destruct (pattern_eq_dec p p); [reflexivity | congruence].
  - destruct (pattern_eq_dec p k0) as [-> | _]; [| now apply IH].
    exfalso. apply Hnotin. apply in_map_iff. now exists (k0, n).
Qed.

Lemma dict_get_In (D : dict) (p : pattern) (dflt : Z) :
  In p (map fst D) -> In (p, dict_get D p dflt) D.
Proof.
  induction D as [| [k0 v0] D IH]; cbn [map fst dict_get]; [contradiction |].
  intros Hin. destruct (pattern_eq_dec p k0) as [-> | Hne]; [now left |].
  right. apply IH. destruct Hin as [Heq | Hin]; [congruence | exact Hin].
Qed.

Lemma first_index_lt (p : pattern) (l : list pattern) :
  In p l -> (first_index p l < List.length l)%nat.
Proof.
  induction l as [| q l IH]; cbn [first_index List.length]; [contradiction |].
  intros Hin. destruct (pattern_eq_dec p q) as [| Hne]; [lia |].
  destruct Hin as [Heq | Hin]; [congruence |]. apply IH in Hin. lia.
Qed.

Lemma first_index_app (p : pattern) (l l' : list pattern) :
  In p l -> first_index p (l ++ l') = first_index p l.
Proof.
  induction l as [| q l IH]; cbn [first_index app]; [contradiction |].
  intros Hin. destruct (pattern_eq_dec p q) as [| Hne]; [reflexivity |].
  destruct Hin as [Heq | Hin]; [congruence |]. now rewrite IH.
Qed.

Lemma first_index_new (p : pattern) (l : list pattern) :
  ~ In p l -> first_index p (l ++ [p]) = List.length l.
Proof.
  induction l as [| q l IH]; cbn [first_index app List.length]; intros Hn.
  - destruct (pattern_eq_dec p p); [reflexivity | congruence].
  - destruct (pattern_eq_dec p q) as [-> | _].
    + exfalso. apply Hn. now left.
    + rewrite IH; [reflexivity |]. intros Hin. apply Hn. now right.
Qed.

Lemma tally_snoc (D : dict) (l : list pattern) (x : pattern) :
  tally D (l ++ [x]) =
  dict_set (tally D l) x (dict_get (tally D l) x 0 + 1).
Proof. unfold tally. now rewrite fold_left_app. Qed.

Lemma count_syndromes_tally (samples : list (list Z)) (d : Z) :
  count_syndromes samples (d - 1) = tally [] (syndromes samples d).
Proof.
  unfold count_syndromes, tally, syndromes.
  generalize (@nil (pattern * Z)).
  induction samples as [| r samples IH]; intros D; cbn [fold_left map];
    [reflexivity | apply IH].
Qed.

End DictFacts.

Section TallyFacts.

Import decoder.

(** After counting, every pattern has its exact number of occurrences. *)
Lemma tally_counts (l : list pattern) (p : pattern) :
  dict_get (tally [] l) p 0 = Z.of_nat (occurrences l p).
Proof.
  unfold occurrences.
  induction l as [| x l IH] using rev_ind; [reflexivity |].
  rewrite tally_snoc, dict_get_set, count_occ_app. cbn [count_occ].
  destruct (pattern_eq_dec p x) as [-> | Hne].
  - destruct (pattern_eq_dec x x); [lia | congruence].
  - destruct (pattern_eq_dec x p); [congruence | lia].
Qed.

(** The keys are the distinct patterns, in the order of their first
    occurrence. *)
Lemma tally_keys (l : list pattern) :
  NoDup (map fst (tally [] l)) /\
  (forall p, In p (map fst (tally [] l)) <-> In p l) /\
  (forall l1 p l2 q,
      map fst (tally [] l) = l1 ++ p :: l2 -> In q l2 ->
      (first_index p l < first_index q l)%nat).
Proof.
  induction l as [| x l (Hnd & Hkeys & Hord)] using rev_ind.
  - split; [constructor | split].
    + intros p. reflexivity.
    + intros [| a l1] p l2 q Heq; discriminate.
  - rewrite tally_snoc, keys_dict_set.
    destruct (in_dec pattern_eq_dec x (map fst (tally [] l))) as [Hin | Hnew].
    + split; [exact Hnd | split].
      * intros p. rewrite Hkeys, in_app_iff. cbn [In].
        apply Hkeys in Hin. intuition (subst; auto).
      * intros l1 p l2 q Heq Hq.
        assert (Hp : In p l).
        { apply Hkeys. rewrite Heq. apply in_elt. }
        assert (Hq' : In q l).
        { apply Hkeys. rewrite Heq. apply in_or_app. right. now right. }
        rewrite !first_index_app by assumption. now apply (Hord l1 p l2 q).
    + split; [| split].
      * apply NoDup_app; [exact Hnd | repeat constructor; auto |].
        intros p Hp [<- | []]. now apply Hnew.
      * intros p. rewrite !in_app_iff, Hkeys. reflexivity.
      * intros l1 p l2 q Heq Hq.
        destruct (exists_last (l := l2)) as (l2' & y & ->).
        { intros ->. contradiction. }
        change (l1 ++ p :: l2' ++ [y]) with (l1 ++ (p :: l2') ++ [y]) in Heq.
        rewrite app_assoc in Heq. apply app_inj_tail in Heq.
        destruct Heq as (Heq & <-).
        assert (Hp : In p l).
        { apply Hkeys. rewrite Heq. apply in_elt. }
        rewrite (first_index_app p) by assumption.
        apply in_app_iff in Hq. destruct Hq as [Hq | [<- | []]].
        -- assert (Hq' : In q l).
           { apply Hkeys. rewrite Heq. apply in_or_app. right. now right. }
           rewrite (first_index_app q) by assumption.
           now apply (Hord l1 p l2' q).
        -- rewrite first_index_new.
           ++ now apply first_index_lt.
           ++ intros Hx. apply Hnew. now apply Hkeys.
Qed.

(** [max] returns the first item whose count is maximal. *)
Lemma max_by_snd_first (K : Type) (l : list (K * Z)) :
  forall (best : K * Z) (pre1 pre2 : list (K * Z)),
    (forall y, In y pre1 -> snd y < snd best) ->
    (forall y, In y pre2 -> snd y <= snd best) ->
    exists l1 l2,
      pre1 ++ best :: pre2 ++ l = l1 ++ max_by_snd best l :: l2 /\
      (forall y, In y l1 -> snd y < snd (max_by_snd best l)) /\
      (forall y, In y l2 -> snd y <= snd (max_by_snd best l)).
Proof.
  induction l as [| x l IH]; intros best pre1 pre2 H1 H2; cbn [max_by_snd].
  - exists pre1, pre2. rewrite app_nil_r. auto.
  - destruct (Z.gtb_spec (snd x) (snd best)) as [Hgt | Hle].
    + destruct (IH x (pre1 ++ best :: pre2) []) as (l1 & l2 & Heq & Hl1 & Hl2).
      * intros y Hy. apply in_app_iff in Hy.
        destruct Hy as [Hy | [<- | Hy]];
          [apply H1 in Hy | | apply H2 in Hy]; lia.
      * intros y [].
      * exists l1, l2. split; [| auto].
        rewrite <- Heq, <- app_assoc. reflexivity.
    + destruct (IH best pre1 (pre2 ++ [x])) as (l1 & l2 & Heq & Hl1 & Hl2).
      * exact H1.
      * intros y Hy. apply in_app_iff in Hy.
        destruct Hy as [Hy | [<- | []]]; [now apply H2 | lia].
      * exists l1, l2. split; [| auto].
        rewrite <- Heq, <- app_assoc. reflexivity.
Qed.

Lemma tally_nonempty (l : list pattern) : l <> [] -> tally [] l <> [].
Proof.
  intros Hne Hempty.
  destruct l as [| x l]; [congruence |].
  pose proof (proj1 (proj2 (tally_keys (x :: l))) x) as Hx.
  rewrite Hempty in Hx. apply Hx. now left.
Qed.

End TallyFacts.

Section StatisticsFacts.

Import decoder.

Lemma tally_items (l : list pattern) (p : pattern) (n : Z) :
  In (p, n) (tally [] l) <-> In p l /\ n = Z.of_nat (occurrences l p).
Proof.
  destruct (tally_keys l) as (Hnd & Hkeys & _). split.
  - intros Hin. split.
    + apply Hkeys. apply in_map_iff. now exists (p, n).
    + rewrite <- tally_counts. symmetry. now apply In_dict_get.
  - intros (Hin & ->). rewrite <- tally_counts.
    apply dict_get_In. now apply Hkeys.
Qed.

(** C8. On a non-empty sample matrix [analyze_syndrome_patterns] returns
    statistics in which: the items of [patterns] are exactly the distinct
    syndrome prefixes of the rows, each once, with its exact number of
    occurrences; [num_unique_patterns] is the number of distinct prefixes;
    [total_samples] is the number of rows; and [most_common] is a prefix
    of maximal count with that count, which among the prefixes of the
    same count is the one met first in row order. *)
Theorem syndrome_statistics :
  forall (samples : list (list Z)) (d : Z),
    samples <> [] ->
    exists stats,
      analyze_syndrome_patterns samples d = Ok stats /\
      (forall p n,
          In (p, n) (patterns stats) <->
          In p (syndromes samples d) /\
          n = Z.of_nat (occurrences (syndromes samples d) p)) /\
      NoDup (map fst (patterns stats)) /\
      (forall p, dict_get (patterns stats) p 0 =
                 Z.of_nat (occurrences (syndromes samples d) p)) /\
      num_unique_patterns stats =
      Z.of_nat (List.length (nodup pattern_eq_dec (syndromes samples d))) /\
      total_samples stats = len samples /\
      In (fst (most_common stats)) (syndromes samples d) /\
      snd (most_common stats) =
      Z.of_nat (occurrences (syndromes samples d) (fst (most_common stats))) /\
      (forall q,
          (occurrences (syndromes samples d) q <=
           occurrences (syndromes samples d) (fst (most_common stats)))%nat) /\
      (forall q,
          q <> fst (most_common stats) ->
          occurrences (syndromes samples d) q =
          occurrences (syndromes samples d) (fst (most_common stats)) ->
          (first_index (fst (most_common stats)) (syndromes samples d) <
           first_index q (syndromes samples d))%nat).
Proof.
  intros samples d Hne.
  unfold analyze_syndrome_patterns. rewrite count_syndromes_tally.
  set (pats := syndromes samples d).
  assert (Hpats : pats <> []).
  { unfold pats, syndromes. destruct samples; [congruence | discriminate]. }
  destruct (tally_keys pats) as (Hnd & Hkeys & Hord).
  pose proof (tally_nonempty pats Hpats) as Hnonempty.
  destruct (tally [] pats) as [| x D] eqn:HD; [congruence |].
  cbn [max_key_snd bind].
  destruct (max_by_snd_first pattern D x [] []) as (l1 & l2 & Hsplit & Hl1 & Hl2);
    [intros y [] | intros y [] |].
  cbn [app] in Hsplit.
  set (mc := max_by_snd x D) in *.
  eexists. split; [reflexivity |].
  cbn [patterns num_unique_patterns most_common total_samples].
  rewrite <- HD. rewrite <- HD in Hnd, Hkeys, Hord.
  assert (Hitems : forall p n, In (p, n) (l1 ++ mc :: l2) <->
                     In p pats /\ n = Z.of_nat (occurrences pats p)).
  { intros p n. rewrite <- Hsplit, <- HD. apply tally_items. }
  assert (Hmc : In (fst mc) pats /\ snd mc = Z.of_nat (occurrences pats (fst mc))).
  { apply Hitems. rewrite <- surjective_pairing. apply in_elt. }
  split; [apply tally_items | split; [exact Hnd | split; [apply tally_counts |]]].
  split; [| split; [reflexivity | split; [apply Hmc | split; [apply Hmc |]]]].
  - unfold len. f_equal. rewrite <- (length_map fst).
    apply Permutation_length. apply NoDup_Permutation.
    + exact Hnd.
    + apply NoDup_nodup.
    + intros p. rewrite Hkeys, nodup_In. reflexivity.
  - split.
    + intros q.
      destruct (in_dec pattern_eq_dec q pats) as [Hq | Hq].
      * assert (Hin : In (q, Z.of_nat (occurrences pats q)) (l1 ++ mc :: l2))
          by (apply Hitems; auto).
        apply in_app_iff in Hin.
        destruct Hin as [Hin | [Heq | Hin]].
        -- apply Hl1 in Hin. cbn [snd] in Hin. lia.
        -- rewrite Heq. cbn [fst]. lia.
        -- apply Hl2 in Hin. cbn [snd] in Hin. lia.
      * unfold occurrences.
        rewrite (proj1 (count_occ_not_In pattern_eq_dec pats q) Hq). lia.
    + intros q Hq Hsame.
      assert (Hqin : In q pats).
      { destruct (in_dec pattern_eq_dec q pats) as [| Hnot]; [assumption |].
        exfalso. unfold occurrences in Hsame.
        rewrite (proj1 (count_occ_not_In pattern_eq_dec pats q) Hnot) in Hsame.
        symmetry in Hsame.
        apply (proj2 (count_occ_not_In pattern_eq_dec pats (fst mc))) in Hsame.
        apply Hsame, Hmc. }
      assert (Hin : In (q, Z.of_nat (occurrences pats q)) (l1 ++ mc :: l2))
        by (apply Hitems; auto).
      apply in_app_iff in Hin.
      destruct Hin as [Hin | [Heq | Hin]].
      * apply Hl1 in Hin. cbn [snd] in Hin. lia.
      * exfalso. apply Hq. rewrite Heq. reflexivity.
      * apply (Hord (map fst l1) (fst mc) (map fst l2) q).
        -- rewrite HD, Hsplit, map_app. reflexivity.
        -- apply in_map_iff. now exists (q, Z.of_nat (occurrences pats q)).
Qed.

Lemma syndrome_statistics_witness :
  [[1; 0; 1; 1; 1]; [0; 0; 1; 1; 1]; [0; 0; 0; 0; 0]; [1; 0; 0; 0; 0]] <> [] /\
  exists stats,
    analyze_syndrome_patterns
      [[1; 0; 1; 1; 1]; [0; 0; 1; 1; 1]; [0; 0; 0; 0; 0]; [1; 0; 0; 0; 0]] 3
    = Ok stats /\
    patterns stats = [([1; 0], 2); ([0; 0], 2)] /\
    most_common stats = ([1; 0], 2) /\
    snd (most_common stats) =
    Z.of_nat
      (occurrences
         (syndromes
            [[1; 0; 1; 1; 1]; [0; 0; 1; 1; 1]; [0; 0; 0; 0; 0]; [1; 0; 0; 0; 0]] 3)
         (fst (most_common stats))).
Proof.
  assert (Hne : [[1; 0; 1; 1; 1]; [0; 0; 1; 1; 1]; [0; 0; 0; 0; 0]; [1; 0; 0; 0; 0]]
                <> ([] : list (list Z))) by discriminate.
  split; [exact Hne |].
  destruct (syndrome_statistics _ 3 Hne)
    as (stats & Hrun & _ & _ & _ & _ & _ & _ & Hcount & _).
  exists stats. split; [exact Hrun |].
  vm_compute in Hrun. injection Hrun as <-.
  split; [reflexivity | split; [reflexivity | exact Hcount]].
Defined.

End StatisticsFacts.

(* ================================================================== *)
(** ** More on the decoder: rows, majorities and error counts *)

Section RowFacts.

Import decoder.

Lemma np_sum_app (a b : list Z) : np_sum (a ++ b) = np_sum a + np_sum b.
Proof.
  unfold np_sum. induction a as [| x a IH]; cbn [app fold_right]; lia.
Qed.

Lemma len_app {A : Type} (a b : list A) : len (a ++ b) = len a + len b.
Proof. unfold len. rewrite length_app. lia. Qed.

Lemma bit_vector_count (l : list Z) :
  bit_vector l ->
  np_sum l = Z.of_nat (ones l) /\
  len l = Z.of_nat (ones l) + Z.of_nat (zeros l).
Proof. intros Hb. split; [now apply np_sum_bits | now apply len_bits]. Qed.

Lemma decode_by_counts (self : MajorityVoteDecoder) (s data : list Z) :
  bit_vector data ->
  decode self s data = if (zeros data <? ones data)%nat then 1 else 0.
Proof.
  intros Hb. unfold decode.
  destruct (bit_vector_count data Hb) as (-> & ->).
  destruct (Nat.ltb_spec (zeros data) (ones data));
    destruct (Z.gtb_spec (Z.of_nat (ones data))
                (Z.of_nat (ones data) + Z.of_nat (zeros data)
                 - Z.of_nat (ones data))); lia || reflexivity.
Qed.

Lemma flipped_bits (l : list Z) :
  bit_vector l -> flipped 0 l = ones l /\ flipped 1 l = zeros l.
Proof.
  unfold flipped, ones, zeros.
  induction 1 as [| b l Hb _ (IH0 & IH1)]; [split; reflexivity |].
  cbn [filter count_occ].
  destruct Hb as [-> | ->]; cbn [Z.eqb negb Pos.eqb List.length];
    destruct (Z.eq_dec _ 1); destruct (Z.eq_dec _ 0); try lia; split; lia.
Qed.

Lemma complement_bits (l : list Z) :
  bit_vector l ->
  bit_vector (complement l) /\
  ones (complement l) = zeros l /\ zeros (complement l) = ones l.
Proof.
  unfold complement, ones, zeros.
  induction 1 as [| b l Hb _ (IHb & IH1 & IH0)].
  - repeat split. constructor.
  - cbn [map count_occ]. split; [| split].
    + constructor; [destruct Hb as [-> | ->]; auto | exact IHb].
    + destruct Hb as [-> | ->];
        destruct (Z.eq_dec _ 1); destruct (Z.eq_dec _ 0); lia.
    + destruct Hb as [-> | ->];
        destruct (Z.eq_dec _ 1); destruct (Z.eq_dec _ 0); lia.
Qed.

(** The two slices that [decode_samples] takes of a row lose nothing, for
    every distance; on a row of [2 * distance - 1] bits they are the
    [distance - 1] syndrome bits and the [distance] data bits. *)
Theorem row_partition :
  forall (d : Z) (row : list Z),
    slice_to (d - 1) row ++ slice_from (d - 1) row = row /\
    (1 <= d -> len row = 2 * d - 1 ->
     len (slice_to (d - 1) row) = d - 1 /\
     len (slice_from (d - 1) row) = d).
Proof.
  intros d row. unfold slice_to, slice_from. split; [apply firstn_skipn |].
  intros Hd Hlen. rewrite Hlen. unfold len in *.
  rewrite length_firstn, length_skipn. unfold slice_bound.
  destruct (Z.ltb_spec (d - 1) 0); lia.
Qed.

Lemma row_partition_witness :
  1 <= 3 /\ len [1; 0; 1; 1; 1] = 2 * 3 - 1 /\
  len (slice_to (3 - 1) [1; 0; 1; 1; 1]) = 3 - 1 /\
  len (slice_from (3 - 1) [1; 0; 1; 1; 1]) = 3.
Proof.
  assert (Hd : 1 <= 3) by lia.
  assert (Hlen : len [1; 0; 1; 1; 1] = 2 * 3 - 1) by reflexivity.
  split; [exact Hd | split; [exact Hlen |]].
  exact (proj2 (row_partition 3 [1; 0; 1; 1; 1]) Hd Hlen).
Defined.

Lemma decode_samples_acc (d : Z) (samples : list (list Z)) (acc : list Z) :
  fold_left
    (fun decoded_values sample =>
       decoded_values ++
       [decode (create_decoder d) (slice_to (d - 1) sample)
          (slice_from (d - 1) sample)])
    samples acc =
  acc ++ map (decode_row d) samples.
Proof.
  revert acc. induction samples as [| r samples IH]; intros acc;
    cbn [fold_left map].
  - now rewrite app_nil_r.
  - rewrite IH, <- app_assoc. reflexivity.
Qed.

Lemma decode_samples_map (samples : list (list Z)) (d : Z) :
  decode_samples samples d = map (decode_row d) samples.
Proof. unfold decode_samples. apply (decode_samples_acc d samples []). Qed.

(** [decode_samples] returns one value per row, in row order, each the
    majority vote on the data part of its row and each 0 or 1; decoding
    two batches one after the other is decoding their concatenation. *)
Theorem decode_samples_rowwise :
  forall (samples : list (list Z)) (d : Z),
    decode_samples samples d = map (decode_row d) samples /\
    len (decode_samples samples d) = len samples /\
    Forall (fun v => v = 0 \/ v = 1) (decode_samples samples d) /\
    forall more,
      decode_samples (samples ++ more) d =
      decode_samples samples d ++ decode_samples more d.
Proof.
  intros samples d. rewrite decode_samples_map.
  split; [reflexivity | split; [| split]].
  - unfold len. now rewrite length_map.
  - apply Forall_map, Forall_forall. intros row _.
    unfold decode_row, decode.
    destruct (_ >? _); [right | left]; reflexivity.
  - intros more. rewrite !decode_samples_map. apply map_app.
Qed.

(** Majority voting recovers the encoded bit from a row of [n] data bits
    when at most [(n - 1) / 2] of them are flipped, and for odd [n] it
    returns the wrong bit as soon as more are flipped. *)
Theorem majority_corrects_up_to_half :
  forall self syndrome (data : list Z) (b n : Z),
    bit_vector data -> b = 0 \/ b = 1 -> len data = n ->
    (Z.of_nat (flipped b data) <= (n - 1) / 2 ->
     decode self syndrome data = b) /\
    (Z.odd n = true -> (n - 1) / 2 < Z.of_nat (flipped b data) ->
     decode self syndrome data = 1 - b).
Proof.
  intros self s data b n Hbits Hb Hlen.
  rewrite (decode_by_counts self s data Hbits).
  destruct (flipped_bits data Hbits) as (H0 & H1).
  destruct (bit_vector_count data Hbits) as (_ & Hcount).
  rewrite Hlen in Hcount.
  pose proof (Z.mul_div_le (n - 1) 2 ltac:(lia)) as Hdiv.
  split.
  - intros Hfew.
    destruct Hb as [-> | ->]; [rewrite H0 in Hfew | rewrite H1 in Hfew];
      destruct (Nat.ltb_spec (zeros data) (ones data)); lia.
  - intros Hodd Hmany.
    assert (Hhalf : 2 * ((n - 1) / 2) = n - 1).
    { rewrite Zodd_bool_iff in Hodd. apply Zodd_ex in Hodd.
      destruct Hodd as (k & ->).
      replace (2 * k + 1 - 1) with (k * 2) by lia.
      rewrite Z.div_mul by lia. lia. }
    destruct Hb as [-> | ->]; [rewrite H0 in Hmany | rewrite H1 in Hmany];
      destruct (Nat.ltb_spec (zeros data) (ones data)); lia.
Qed.

Lemma majority_corrects_up_to_half_witness :
  bit_vector [1; 1; 0; 1; 0] /\ len [1; 1; 0; 1; 0] = 5 /\
  Z.of_nat (flipped 1 [1; 1; 0; 1; 0]) <= (5 - 1) / 2 /\
  decode (create_decoder 5) [0; 1; 1; 1] [1; 1; 0; 1; 0] = 1 /\
  Z.odd 5 = true /\ (5 - 1) / 2 < Z.of_nat (flipped 0 [1; 1; 0; 1; 0]) /\
  decode (create_decoder 5) [0; 1; 1; 1] [1; 1; 0; 1; 0] = 1 - 0.
Proof.
  assert (Hbits : bit_vector [1; 1; 0; 1; 0]) by (repeat constructor; auto).
  assert (Hlen : len [1; 1; 0; 1; 0] = 5) by reflexivity.
  assert (Hfew : Z.of_nat (flipped 1 [1; 1; 0; 1; 0]) <= (5 - 1) / 2)
    by (vm_compute; discriminate).
  assert (Hmany : (5 - 1) / 2 < Z.of_nat (flipped 0 [1; 1; 0; 1; 0]))
    by reflexivity.
  split; [exact Hbits | split; [exact Hlen | split; [exact Hfew |]]].
  split.
  - exact (proj1 (majority_corrects_up_to_half (create_decoder 5) [0; 1; 1; 1]
                    [1; 1; 0; 1; 0] 1 5 Hbits (or_intror eq_refl) Hlen) Hfew).
  - split; [reflexivity | split; [exact Hmany |]].
    exact (proj2 (majority_corrects_up_to_half (create_decoder 5) [0; 1; 1; 1]
                    [1; 1; 0; 1; 0] 0 5 Hbits (or_introl eq_refl) Hlen)
             eq_refl Hmany).
Defined.

End RowFacts.

Section VoteFacts.

Import decoder.

(** On a row of odd length, complementing every data bit complements the
    decoded value. *)
Theorem decode_complement :
  forall self s1 s2 (data : list Z),
    bit_vector data -> Z.odd (len data) = true ->
    decode self s1 (complement data) = 1 - decode self s2 data.
Proof.
  intros self s1 s2 data Hbits Hodd.
  destruct (complement_bits data Hbits) as (Hcb & Hc1 & Hc0).
  rewrite (decode_by_counts self s1 _ Hcb), (decode_by_counts self s2 _ Hbits).
  rewrite Hc1, Hc0.
  destruct (bit_vector_count data Hbits) as (_ & Hlen).
  rewrite Hlen in Hodd. rewrite Zodd_bool_iff in Hodd. apply Zodd_ex in Hodd.
  destruct Hodd as (k & Hk).
  destruct (Nat.ltb_spec (ones data) (zeros data));
    destruct (Nat.ltb_spec (zeros data) (ones data)); lia.
Qed.

Lemma decode_complement_witness :
  bit_vector [1; 0; 0] /\ Z.odd (len [1; 0; 0]) = true /\
  decode (create_decoder 3) [1; 0] (complement [1; 0; 0]) =
  1 - decode (create_decoder 3) [1; 0] [1; 0; 0].
Proof.
  assert (Hbits : bit_vector [1; 0; 0]) by (repeat constructor; auto).
  split; [exact Hbits | split; [reflexivity |]].
  exact (decode_complement (create_decoder 3) [1; 0] [1; 0] [1; 0; 0]
           Hbits eq_refl).
Defined.

(** A tie, which needs a row of even length, decodes to 0, and so does
    the complemented row: the vote is biased towards 0. *)
Theorem decode_tie :
  forall self s (data : list Z),
    bit_vector data -> ones data = zeros data ->
    Z.even (len data) = true /\
    decode self s data = 0 /\ decode self s (complement data) = 0.
Proof.
  intros self s data Hbits Htie.
  destruct (complement_bits data Hbits) as (Hcb & Hc1 & Hc0).
  rewrite (decode_by_counts self s _ Hcb), (decode_by_counts self s _ Hbits).
  rewrite Hc1, Hc0, Htie.
  destruct (bit_vector_count data Hbits) as (_ & Hlen).
  rewrite Nat.ltb_irrefl. split; [| split; reflexivity].
  rewrite Hlen, Htie.
  replace (Z.of_nat (zeros data) + Z.of_nat (zeros data))
    with (2 * Z.of_nat (zeros data)) by lia.
  apply Z.even_mul.
Qed.

Lemma decode_tie_witness :
  bit_vector [1; 0; 0; 1] /\ ones [1; 0; 0; 1] = zeros [1; 0; 0; 1] /\
  decode (create_decoder 4) [1; 0; 1] [1; 0; 0; 1] = 0 /\
  decode (create_decoder 4) [1; 0; 1] (complement [1; 0; 0; 1]) = 0.
Proof.
  assert (Hbits : bit_vector [1; 0; 0; 1]) by (repeat constructor; auto).
  assert (Htie : ones [1; 0; 0; 1] = zeros [1; 0; 0; 1]) by reflexivity.
  split; [exact Hbits | split; [exact Htie |]].
  exact (proj2 (decode_tie (create_decoder 4) [1; 0; 1] [1; 0; 0; 1]
                  Hbits Htie)).
Defined.

Lemma np_sum_permutation (a b : list Z) :
  Permutation a b -> np_sum a = np_sum b.
Proof.
  unfold np_sum. induction 1; cbn [fold_right]; lia.
Qed.

(** The decoded value depends on the data bits only through how many of
    them are set: reordering the data leaves it unchanged. *)
Theorem decode_permutation :
  forall self s1 s2 (data data' : list Z),
    Permutation data data' ->
    decode self s1 data = decode self s2 data'.
Proof.
  intros self s1 s2 data data' Hperm. unfold decode, len.
  rewrite (np_sum_permutation _ _ Hperm), (Permutation_length Hperm).
  reflexivity.
Qed.

Lemma decode_permutation_witness :
  Permutation [1; 0; 1] [0; 1; 1] /\
  decode (create_decoder 3) [1; 1] [1; 0; 1] =
  decode (create_decoder 3) [1; 0] [0; 1; 1].
Proof.
  assert (Hperm : Permutation [1; 0; 1] [0; 1; 1]).
  { apply perm_trans with (l' := [0; 1; 1]);
      [apply perm_swap | apply Permutation_refl]. }
  split; [exact Hperm |].
  exact (decode_permutation (create_decoder 3) [1; 1] [1; 0] _ _ Hperm).
Defined.

Lemma count_differing_map (f : list Z -> Z) (e : Z) (samples : list (list Z)) :
  count_differing (map f samples) e =
  Z.of_nat (List.length (filter (fun row => negb (f row =? e)) samples)).
Proof.
  unfold count_differing, np_sum.
  induction samples as [| r samples IH]; [reflexivity |].
  cbn [map fold_right filter]. rewrite IH.
  destruct (f r =? e); cbn [negb List.length]; lia.
Qed.

(** The number of errors that [calculate_logical_error_rate] divides by
    the number of shots is the number of rows whose vote differs from the
    expected value: it lies between 0 and the number of shots, and an
    expected value other than 0 and 1 makes every shot an error. *)
Theorem error_count :
  forall (samples : list (list Z)) (d e : Z),
    count_differing (decode_samples samples d) e =
    Z.of_nat (List.length
                (filter (fun row => negb (decode_row d row =? e)) samples)) /\
    0 <= count_differing (decode_samples samples d) e <= len samples /\
    (e <> 0 -> e <> 1 ->
     count_differing (decode_samples samples d) e = len samples).
Proof.
  intros samples d e. rewrite decode_samples_map, count_differing_map.
  split; [reflexivity | split].
  - pose proof (filter_length_le
                  (fun row => negb (decode_row d row =? e)) samples).
    unfold len. lia.
  - intros H0 H1. unfold len. f_equal. f_equal.
    apply forallb_filter_id. apply forallb_forall. intros row _.
    unfold decode_row, decode.
    destruct (_ >? _); apply negb_true_iff, Z.eqb_neq; congruence.
Qed.

Lemma error_count_witness :
  2 <> 0 /\ 2 <> 1 /\
  count_differing
    (decode_samples [[0; 0; 0; 0; 0]; [1; 0; 0; 1; 1]] 3) 2 =
  len [[0; 0; 0; 0; 0]; [1; 0; 0; 1; 1]].
Proof.
  assert (H0 : 2 <> 0) by discriminate.
  assert (H1 : 2 <> 1) by discriminate.
  split; [exact H0 | split; [exact H1 |]].
  exact (proj2 (proj2 (error_count [[0; 0; 0; 0; 0]; [1; 0; 0; 1; 1]] 3 2))
           H0 H1).
Defined.

End VoteFacts.

(* ================================================================== *)
(** ** More on the rate estimators *)

Section EstimatorFacts.

Lemma len_zero_iff {A : Type} (l : list A) : len l = 0 <-> l = [].
Proof.
  unfold len. destruct l; cbn [List.length]; split; intros Heq;
    try reflexivity; try discriminate; lia.
Qed.

Lemma num_errors_acc (n : Z) (f : list Z -> list Z -> Z)
  (samples : list (list Z)) (acc : Z) :
  fold_left
    (fun num_errors sample =>
       if negb (f (slice_to n sample) (slice_from n sample) =? 0)
       then num_errors + 1 else num_errors)
    samples acc =
  acc + Z.of_nat
          (List.length
             (filter (fun row =>
                        negb (f (slice_to n row) (slice_from n row) =? 0))
                samples)).
Proof.
  revert acc. induction samples as [| r samples IH]; intros acc;
    cbn [fold_left filter]; [cbn; lia |].
  rewrite IH.
  destruct (negb (f (slice_to n r) (slice_from n r) =? 0));
    cbn [List.length]; lia.
Qed.

(** [ErrorSimulator.calculate_logical_error_rate] raises exactly on the
    empty sample matrix, whatever the decoder function; otherwise it
    returns the ratio of the number of rows decoded to a non-zero value to
    the number of rows. *)
Theorem simulator_rate :
  forall (samples : list (list Z)) (n : Z) (f : list Z -> list Z -> Z),
    (samples = [] ->
     error_simulation.calculate_logical_error_rate samples n f =
     Raise (ZeroDivisionError "division by zero")) /\
    (samples <> [] ->
     error_simulation.calculate_logical_error_rate samples n f =
     Ok (decoder.np_true_divide
           (Z.of_nat
              (List.length
                 (filter (fun row =>
                            negb (f (slice_to n row) (slice_from n row) =? 0))
                    samples)))
           (len samples))).
Proof.
  intros samples n f.
  unfold error_simulation.calculate_logical_error_rate,
    error_simulation.py_true_divide.
  split.
  - intros ->. reflexivity.
  - intros Hne. rewrite num_errors_acc.
    destruct (Z.eqb_spec (len samples) 0) as [Hz | _].
    + apply len_zero_iff in Hz. contradiction.
    + reflexivity.
Qed.

Lemma simulator_rate_witness :
  [[0; 0; 1; 1; 1]; [0; 0; 0; 0; 0]] <> [] /\
  error_simulation.calculate_logical_error_rate
    [[0; 0; 1; 1; 1]; [0; 0; 0; 0; 0]] 2
    (decoder.decode (decoder.create_decoder 3)) = Ok 0.5%float.
Proof.
  assert (Hne : [[0; 0; 1; 1; 1]; [0; 0; 0; 0; 0]] <> ([] : list (list Z)))
    by discriminate.
  split; [exact Hne |].
  exact (proj2 (simulator_rate [[0; 0; 1; 1; 1]; [0; 0; 0; 0; 0]] 2
                  (decoder.decode (decoder.create_decoder 3))) Hne).
Defined.

(** On a non-empty sample matrix the estimator of [ErrorSimulator], given
    the majority-vote decoder and the split at [distance - 1], returns the
    value of [calculate_logical_error_rate] of [decoder.py] for the
    expected value 0; the two differ only on the empty matrix. *)
Theorem estimators_agree :
  forall (samples : list (list Z)) (d : Z),
    samples <> [] ->
    error_simulation.calculate_logical_error_rate samples (d - 1)
      (decoder.decode (decoder.create_decoder d)) =
    Ok (decoder.calculate_logical_error_rate samples d 0).
Proof.
  intros samples d Hne.
  rewrite (proj2 (simulator_rate samples (d - 1) _) Hne).
  unfold decoder.calculate_logical_error_rate.
  rewrite decode_samples_map, count_differing_map.
  unfold len. rewrite length_map. reflexivity.
Qed.

Lemma estimators_agree_witness :
  [[1; 0; 1; 1; 0]; [0; 0; 0; 0; 0]; [1; 1; 1; 1; 1]] <> [] /\
  error_simulation.calculate_logical_error_rate
    [[1; 0; 1; 1; 0]; [0; 0; 0; 0; 0]; [1; 1; 1; 1; 1]] (3 - 1)
    (decoder.decode (decoder.create_decoder 3)) =
  Ok (decoder.calculate_logical_error_rate
        [[1; 0; 1; 1; 0]; [0; 0; 0; 0; 0]; [1; 1; 1; 1; 1]] 3 0).
Proof.
  assert (Hne : [[1; 0; 1; 1; 0]; [0; 0; 0; 0; 0]; [1; 1; 1; 1; 1]]
                <> ([] : list (list Z))) by discriminate.
  split; [exact Hne |].
  exact (estimators_agree _ 3 Hne).
Defined.

Lemma np_sum_bounds (l : list Z) :
  bit_vector l -> 0 <= decoder.np_sum l <= len l.
Proof.
  intros Hb. rewrite (np_sum_bits l Hb), (len_bits l Hb). lia.
Qed.

(** [calculate_physical_error_rate] never raises: on an empty matrix its
    value is NaN; on a matrix of bits the count it divides is the number
    of set bits, between 0 and the number of entries. *)
Theorem physical_rate :
  PrimFloat.is_nan (error_simulation.calculate_physical_error_rate []) = true /\
  forall samples : list (list Z),
    Forall bit_vector samples ->
    decoder.np_sum (List.concat samples) =
    Z.of_nat (ones (List.concat samples)) /\
    0 <= decoder.np_sum (List.concat samples) <= len (List.concat samples) /\
    error_simulation.calculate_physical_error_rate samples =
    decoder.np_true_divide (Z.of_nat (ones (List.concat samples)))
      (len samples).
Proof.
  split; [reflexivity |].
  intros samples Hall.
  assert (Hb : bit_vector (List.concat samples)).
  { unfold bit_vector in *. apply Forall_concat. exact Hall. }
  split; [now apply np_sum_bits | split; [now apply np_sum_bounds |]].
  unfold error_simulation.calculate_physical_error_rate.
  now rewrite (np_sum_bits _ Hb).
Qed.

Lemma physical_rate_witness :
  Forall bit_vector [[1]; [0]; [0]; [1]] /\
  error_simulation.calculate_physical_error_rate [[1]; [0]; [0]; [1]] =
  0.5%float.
Proof.
  assert (Hall : Forall bit_vector [[1]; [0]; [0]; [1]])
    by (repeat constructor; auto).
  split; [exact Hall |].
  exact (proj2 (proj2 (proj2 physical_rate [[1]; [0]; [0]; [1]] Hall))).
Defined.

Lemma error_rates_acc (e : Z) (pairs : list (list (list Z) * Z))
  (acc : list float) :
  fold_left
    (fun error_rates sd =>
       let '(samples, distance) := sd in
       error_rates ++ [decoder.calculate_logical_error_rate samples distance e])
    pairs acc =
  acc ++ map (fun sd => decoder.calculate_logical_error_rate (fst sd) (snd sd) e)
           pairs.
Proof.
  revert acc. induction pairs as [| [s d] pairs IH]; intros acc;
    cbn [fold_left map fst snd].
  - now rewrite app_nil_r.
  - rewrite IH, <- app_assoc. reflexivity.
Qed.

(** [calculate_error_rates_from_samples] pairs the sample sets with the
    distances position by position and stops at the end of the shorter
    list: surplus sample sets or distances are dropped without an error. *)
Theorem error_rates_zip :
  forall (samples_list : list (list (list Z))) (code_distances : list Z)
    (e : Z),
    List.length
      (analysis.calculate_error_rates_from_samples samples_list code_distances e)
    = Nat.min (List.length samples_list) (List.length code_distances) /\
    forall (k : nat) samples d,
      nth_error samples_list k = Some samples ->
      nth_error code_distances k = Some d ->
      nth_error
        (analysis.calculate_error_rates_from_samples samples_list
           code_distances e) k =
      Some (decoder.calculate_logical_error_rate samples d e).
Proof.
  intros samples_list code_distances e.
  unfold analysis.calculate_error_rates_from_samples.
  rewrite (error_rates_acc e (combine samples_list code_distances) []).
  cbn [app]. split.
  - now rewrite length_map, length_combine.
  - intros k samples d Hs Hd. rewrite nth_error_map.
    revert code_distances k Hs Hd.
    induction samples_list as [| s0 sl IH]; intros [| d0 dl] [| k] Hs Hd;
      cbn [nth_error combine option_map] in *; try discriminate.
    + injection Hs as ->. injection Hd as ->. reflexivity.
    + now apply IH.
Qed.

Lemma error_rates_zip_witness :
  nth_error [[[0; 0; 1; 1; 1]]; [[0; 0; 0; 0; 0; 0; 0; 0; 0]]] 0 =
    Some [[0; 0; 1; 1; 1]] /\
  nth_error [3] 0 = Some 3 /\
  nth_error
    (analysis.calculate_error_rates_from_samples
       [[[0; 0; 1; 1; 1]]; [[0; 0; 0; 0; 0; 0; 0; 0; 0]]] [3] 0) 0 =
  Some (decoder.calculate_logical_error_rate [[0; 0; 1; 1; 1]] 3 0).
Proof.
  split; [reflexivity | split; [reflexivity |]].
  exact (proj2 (error_rates_zip
                  [[[0; 0; 1; 1; 1]]; [[0; 0; 0; 0; 0; 0; 0; 0; 0]]] [3] 0)
           0%nat _ _ eq_refl eq_refl).
Defined.

End EstimatorFacts.

(* ================================================================== *)
(** ** More on the built circuit *)

Section LayoutFacts.

Import stim repetition_code.

Lemma measured_operations (d : Z) (b : string) (p mn : float) :
  measured (operations (mkRepetitionCode d d (d - 1) b) p mn) =
  map (fun i => d + i) (range 0 (d - 1)) ++ range 0 d.
Proof.
  destruct (operations_split d b p mn) as (setup & Hsetup & _ & ->).
  rewrite !measured_app, Hsetup, measured_flat_map, measured_map.
  cbn [app is_measure name Gate_eqb targets].
  rewrite (flat_map_ext _ _ (measured_ancilla_block d mn)).
  rewrite !flat_map_single, map_id. reflexivity.
Qed.

Lemma range_shift (d a b : Z) :
  map (fun i => d + i) (range a b) = range (d + a) (d + b).
Proof.
  unfold range. rewrite map_map.
  replace (d + b - (d + a)) with (b - a) by lia.
  apply map_ext. intros k. lia.
Qed.

Lemma map_seq_offset {A : Type} (n m : nat) :
  forall f : nat -> A,
    map f (seq n m) = map (fun k => f (n + k)%nat) (seq 0 m).
Proof.
  induction n as [| n IH]; intros f; [reflexivity |].
  rewrite <- seq_shift, map_map, IH. reflexivity.
Qed.

Lemma range_app (a b c : Z) :
  a <= b -> b <= c -> range a c = range a b ++ range b c.
Proof.
  intros Hab Hbc. unfold range.
  replace (Z.to_nat (c - a)) with (Z.to_nat (b - a) + Z.to_nat (c - b))%nat
    by lia.
  rewrite seq_app, map_app. f_equal. cbn [Nat.add].
  rewrite map_seq_offset. apply map_ext. intros k. lia.
Qed.

Lemma NoDup_range (a b : Z) : NoDup (range a b).
Proof.
  unfold range. apply Finite.Injective_map_NoDup; [| apply seq_NoDup].
  intros x y Hxy. lia.
Qed.

(** The split that [decode_samples] makes at [distance - 1] is the split
    of the measurement slots of the built circuit: the first part holds
    the ancillas, the second the data qubits.  Every qubit from 0 to
    [2 * distance - 2] is measured exactly once, and no other. *)
Theorem decoder_split_matches_layout :
  forall valid_probability d b p mn self c,
    RepetitionCode_init d b = Ok self ->
    create_syndrome_measurement_circuit valid_probability self p mn = Ok c ->
    slice_to (d - 1) (measured c) = range d (2 * d - 1) /\
    slice_from (d - 1) (measured c) = range 0 d /\
    NoDup (measured c) /\
    Permutation (measured c) (range 0 (2 * d - 1)).
Proof.
  intros vp d b p mn self c Hinit Hbuild.
  apply init_ok_inv in Hinit. destruct Hinit as (-> & Hd & _ & _).
  apply built_circuit in Hbuild. subst c.
  rewrite measured_operations, range_shift.
  replace (d + 0) with d by lia. replace (d + (d - 1)) with (2 * d - 1) by lia.
  assert (Hbound : slice_bound (d - 1)
                     (len (range d (2 * d - 1) ++ range 0 d)) =
                   List.length (range d (2 * d - 1))).
  { unfold slice_bound, len.
    rewrite length_app, !length_range.
    destruct (Z.ltb_spec (d - 1) 0); lia. }
  unfold slice_to, slice_from. rewrite Hbound.
  split; [| split; [| split]].
  - rewrite firstn_app, Nat.sub_diag, firstn_all. cbn [firstn].
    apply app_nil_r.
  - rewrite skipn_app, Nat.sub_diag, skipn_all. reflexivity.
  - apply NoDup_app; [apply NoDup_range | apply NoDup_range |].
    intros q Hq Hq'. apply In_range in Hq, Hq'. lia.
  - rewrite (range_app 0 d (2 * d - 1)) by lia. apply Permutation_app_comm.
Qed.

Lemma decoder_split_matches_layout_witness :
  RepetitionCode_init 3 "z" = Ok (mkRepetitionCode 3 3 2 "z") /\
  exists c,
    create_syndrome_measurement_circuit probability_in_unit_interval
      (mkRepetitionCode 3 3 2 "z") 0.125 0 = Ok c /\
    slice_to (3 - 1) (measured c) = [3; 4] /\
    slice_from (3 - 1) (measured c) = [0; 1; 2].
Proof.
  split; [reflexivity |].
  eexists. split; [reflexivity |].
  pose proof (decoder_split_matches_layout probability_in_unit_interval 3 "z"
                0.125%float 0%float _ _ eq_refl eq_refl) as (Hs & Hd & _).
  split; [exact Hs | exact Hd].
Defined.

End LayoutFacts.

Section CensusFacts.

Import stim repetition_code.








End CensusFacts.

(* ================================================================== *)
(** ** The encoding circuit and the unprotected qubit *)

Section EncodingFacts.

Import stim repetition_code.

Lemma append_named_loop {X : Type} (g : string) (t : X -> list Z)
  (xs : list X) (c : list NamedOp) :
  fold_left (fun circuit i => append_named circuit g (t i)) xs c =
  c ++ map (fun i => (g, t i)) xs.
Proof.
  revert c. induction xs as [| x xs IH]; intros c; cbn [fold_left map].
  - now rewrite app_nil_r.
  - rewrite IH. unfold append_named. now rewrite <- app_assoc.
Qed.

Lemma encoding_operations (self : RepetitionCode) (st : string) :
  create_encoding_circuit self st =
  (if String.eqb st "1" then [("X"%string, [0])] else [])
  ++ map (fun i => ("CNOT"%string, [0; i])) (range 1 (num_qubits self))
  ++ (if String.eqb (basis self) "x"
      then map (fun i => ("H"%string, [i])) (range 0 (num_qubits self))
      else []).
Proof.
  unfold create_encoding_circuit. cbv zeta.
  destruct (String.eqb (basis self) "x").
  - rewrite !append_named_loop. unfold append_named.
    destruct (String.eqb st "1"); cbn [app]; now rewrite <- ?app_assoc.
  - rewrite append_named_loop, app_nil_r. unfold append_named.
    destruct (String.eqb st "1"); reflexivity.
Qed.

(** The encoding circuit.  Only the initial state ["1"] adds the bit flip
    on qubit 0 in front; every other string, valid or not, gives the
    encoding of logical 0.  The syndrome-measurement circuit begins with
    exactly the operations of the encoding circuit of logical 0. *)
Theorem encoding_prefix :
  forall (self : RepetitionCode),
    (forall st, st <> "1"%string ->
                create_encoding_circuit self st =
                create_encoding_circuit self "0") /\
    create_encoding_circuit self "1" =
    ("X"%string, [0]) :: create_encoding_circuit self "0" /\
    forall valid_probability p mn c,
      create_syndrome_measurement_circuit valid_probability self p mn = Ok c ->
      exists rest,
        map named c = create_encoding_circuit self "0" ++ map named rest.
Proof.
  intros self. split; [| split].
  - intros st Hst. rewrite !encoding_operations.
    apply String.eqb_neq in Hst. rewrite Hst. reflexivity.
  - rewrite !encoding_operations. reflexivity.
  - intros vp p mn c Hbuild. apply built_circuit in Hbuild. subst c.
    rewrite encoding_operations. unfold operations.
    cbn [String.eqb Ascii.eqb Bool.eqb app].
    match goal with
    | |- exists rest, map named (?enc ++ ?rot ++ ?tail) = _ => exists tail
    end.
    rewrite app_assoc, (map_app named), (map_app named), map_map.
    f_equal. f_equal.
    destruct (String.eqb (basis self) "x"); [| reflexivity].
    rewrite map_map. reflexivity.
Qed.

Lemma encoding_prefix_witness :
  "+"%string <> "1"%string /\
  create_encoding_circuit (mkRepetitionCode 3 3 2 "x") "+" =
  [("CNOT"%string, [0; 1]); ("CNOT"%string, [0; 2]);
   ("H"%string, [0]); ("H"%string, [1]); ("H"%string, [2])].
Proof.
  assert (Hst : "+"%string <> "1"%string) by discriminate.
  split; [exact Hst |].
  exact (proj1 (encoding_prefix (mkRepetitionCode 3 3 2 "x")) "+"%string Hst).
Defined.

End EncodingFacts.

Section UnprotectedFacts.

Import stim repetition_code.
Import repetition_code.UnprotectedQubit.

(** The circuit of the unprotected qubit.  The call raises exactly when a
    positive noise probability is refused by the circuit library.  A
    built circuit is: a Hadamard in the X basis only, one noise
    instruction when the noise probability is positive and none
    otherwise, the same Hadamard again, the measurement.  It acts on qubit
    0 only, has at most four instructions and one measurement slot. *)
Theorem unprotected_circuit :
  forall valid_probability (b : string) (p : float),
    (PrimFloat.ltb 0 p = true -> valid_probability p = false ->
     exists e,
       create_circuit valid_probability (UnprotectedQubit_init b) p = Raise e) /\
    (PrimFloat.ltb 0 p = false \/ valid_probability p = true ->
     exists c,
       create_circuit valid_probability (UnprotectedQubit_init b) p = Ok c /\
       c = (if String.eqb b "x" then [mkInstruction H [0] None] else [])
           ++ (if PrimFloat.ltb 0 p
               then [mkInstruction
                       (if String.eqb b "z" then X_ERROR else Z_ERROR)
                       [0] (Some p)]
               else [])
           ++ (if String.eqb b "x" then [mkInstruction H [0] None] else [])
           ++ [mkInstruction M [0] None] /\
       measured c = [0] /\
       (forall i, In i c -> targets i = [0]) /\
       len c <= 4).
Proof.
  intros vp b p. unfold create_circuit, UnprotectedQubit_init.
  cbn [basis]. split.
  - intros Hp Hrej. rewrite Hp. unfold append.
    destruct (String.eqb b "x"); cbn [bind]; rewrite Hrej; cbn [bind]; eauto.
  - intros Hok.
    assert (Hcase : PrimFloat.ltb 0 p = false \/
                    (PrimFloat.ltb 0 p = true /\ vp p = true)).
    { destruct (PrimFloat.ltb 0 p); destruct Hok; auto; discriminate. }
    clear Hok.
    destruct Hcase as [Hp | [Hp Hvp]]; rewrite Hp; unfold append;
      rewrite ?Hvp;
      destruct (String.eqb b "x"), (String.eqb b "z");
      cbn [bind app];
      (eexists; split; [reflexivity |]);
      (split; [reflexivity |]);
      (split; [reflexivity |]);
      (split; [intros i Hi; cbn [In] in Hi;
               repeat (destruct Hi as [<- | Hi]; [reflexivity |]);
               contradiction
              | unfold len; cbn [List.length]; lia]).
Qed.

Lemma unprotected_circuit_witness :
  PrimFloat.ltb 0 1.5 = true /\ probability_in_unit_interval 1.5 = false /\
  (exists e,
      create_circuit probability_in_unit_interval (UnprotectedQubit_init "z")
        1.5 = Raise e) /\
  probability_in_unit_interval 0.25 = true /\
  exists c,
    create_circuit probability_in_unit_interval (UnprotectedQubit_init "x")
      0.25 = Ok c /\
    measured c = [0].
Proof.
  split; [reflexivity | split; [reflexivity | split]].
  - exact (proj1 (unprotected_circuit probability_in_unit_interval "z"
                    1.5%float) eq_refl eq_refl).
  - split; [reflexivity |].
    destruct (proj2 (unprotected_circuit probability_in_unit_interval "x"
                       0.25%float) (or_intror eq_refl))
      as (c & Hc & _ & Hm & _).
    exists c. split; [exact Hc | exact Hm].
Defined.

(** The basis of the unprotected qubit is not checked.  A basis that
    [RepetitionCode] refuses at every distance is accepted here and gives
    the phase-flip channel without any basis rotation. *)
Theorem unprotected_basis_unchecked :
  forall (b : string),
    b <> "z"%string -> b <> "x"%string ->
    (forall d, exists msg, RepetitionCode_init d b = Raise (ValueError msg)) /\
    basis (UnprotectedQubit_init b) = b /\
    forall valid_probability p,
      (PrimFloat.ltb 0 p = true -> valid_probability p = true ->
       create_circuit valid_probability (UnprotectedQubit_init b) p =
       Ok [mkInstruction Z_ERROR [0] (Some p); mkInstruction M [0] None]) /\
      (PrimFloat.ltb 0 p = false ->
       create_circuit valid_probability (UnprotectedQubit_init b) p =
       Ok [mkInstruction M [0] None]).
Proof.
  intros b Hz Hx. apply String.eqb_neq in Hz, Hx. split; [| split].
  - intros d. unfold RepetitionCode_init.
    destruct ((d <? 3) || (d mod 2 =? 0)); [eauto |].
    cbn [existsb]. rewrite Hz, Hx. cbn [orb negb]. eauto.
  - reflexivity.
  - intros vp p. unfold create_circuit, UnprotectedQubit_init. cbn [basis].
    rewrite Hz, Hx. split.
    + intros Hp Hvp. rewrite Hp. unfold append. cbn [bind]. rewrite Hvp.
      reflexivity.
    + intros Hp. rewrite Hp. reflexivity.
Qed.

Lemma unprotected_basis_unchecked_witness :
  "y"%string <> "z"%string /\ "y"%string <> "x"%string /\
  (exists msg, RepetitionCode_init 5 "y" = Raise (ValueError msg)) /\
  create_circuit probability_in_unit_interval (UnprotectedQubit_init "y") 0.5 =
  Ok [mkInstruction Z_ERROR [0] (Some 0.5%float); mkInstruction M [0] None].
Proof.
  assert (Hz : "y"%string <> "z"%string) by discriminate.
  assert (Hx : "y"%string <> "x"%string) by discriminate.
  split; [exact Hz | split; [exact Hx |]].
  destruct (unprotected_basis_unchecked "y" Hz Hx) as (Hcode & _ & Hcirc).
  split; [exact (Hcode 5) |].
  exact (proj1 (Hcirc probability_in_unit_interval 0.5%float) eq_refl eq_refl).
Defined.

End UnprotectedFacts.

(* ================================================================== *)
(** ** More on the syndrome statistics *)

Section CountFacts.

Import decoder.






End CountFacts.

(* ================================================================== *)
(** ** The two bases and the edges of the row split *)

Section SkeletonFacts.

Import stim repetition_code.

Lemma map_over_flat_map {X Y W : Type} (g : Y -> W) (f : X -> list Y)
  (xs : list X) :
  map g (flat_map f xs) = flat_map (fun x => map g (f x)) xs.
Proof.
  induction xs as [| x xs IH]; cbn [flat_map map]; [reflexivity |].
  now rewrite map_app, IH.
Qed.

Lemma forallb_accepted_map {X : Type} (vp : float -> bool) (g : Gate)
  (t : X -> list Z) (a : option float) (xs : list X) :
  forallb (accepted vp) (map (fun x => mkInstruction g (t x) a) xs) =
  forallb (fun _ => match a with None => true | Some q => vp q end) xs.
Proof.
  induction xs as [| x xs IH]; cbn [map forallb]; [reflexivity |].
  rewrite IH. reflexivity.
Qed.

Lemma forallb_const_true {X : Type} (xs : list X) :
  forallb (fun _ => true) xs = true.
Proof. induction xs; cbn [forallb]; auto. Qed.

Lemma skeleton_operations (d : Z) (p mn : float) :
  map as_bit_flip
    (without_hadamards (operations (mkRepetitionCode d d (d - 1) "x") p mn)) =
  operations (mkRepetitionCode d d (d - 1) "z") p mn.
Proof.
  unfold without_hadamards, operations.
  cbn [num_qubits num_ancillas basis String.eqb Ascii.eqb Bool.eqb].
  rewrite !filter_app, !map_app, filter_flat_map, map_over_flat_map.
  rewrite !filter_map_flat. cbn [name Gate_eqb negb].
  rewrite !flat_map_empty, !flat_map_single, !map_map.
  cbn [as_bit_flip name targets arg app map].
  f_equal. f_equal; [| f_equal].
  - destruct (PrimFloat.ltb 0 p); [| reflexivity].
    rewrite filter_map_flat. cbn [name Gate_eqb negb].
    rewrite flat_map_single, map_map. reflexivity.
  - apply flat_map_ext. intros i. unfold ancilla_block.
    destruct (PrimFloat.ltb 0 mn); reflexivity.
Qed.

(** The X-basis circuit is the Z-basis circuit of the same distance and
    probabilities with Hadamards added and the data noise turned into a
    phase flip: dropping the Hadamards and reading every phase-flip
    channel as a bit flip gives the Z-basis circuit back.  Both circuits
    have the same measurement slots, and one is built exactly when the
    other is. *)
Theorem basis_skeleton :
  forall valid_probability d p mn self_z self_x,
    RepetitionCode_init d "z" = Ok self_z ->
    RepetitionCode_init d "x" = Ok self_x ->
    ((exists c, create_syndrome_measurement_circuit valid_probability
                  self_z p mn = Ok c) <->
     (exists c, create_syndrome_measurement_circuit valid_probability
                  self_x p mn = Ok c)) /\
    forall c_z c_x,
      create_syndrome_measurement_circuit valid_probability self_z p mn = Ok c_z ->
      create_syndrome_measurement_circuit valid_probability self_x p mn = Ok c_x ->
      map as_bit_flip (without_hadamards c_x) = c_z /\
      measured c_x = measured c_z.
Proof.
  intros vp d p mn self_z self_x Hz Hx.
  apply init_ok_inv in Hz, Hx.
  destruct Hz as (-> & _), Hx as (-> & _).
  split.
  - rewrite !builder_operations, !append_all_spec.
    assert (Hsame : forallb (accepted vp)
                      (operations (mkRepetitionCode d d (d - 1) "z") p mn) =
                    forallb (accepted vp)
                      (operations (mkRepetitionCode d d (d - 1) "x") p mn)).
    { unfold operations.
      cbn [num_qubits num_ancillas basis String.eqb Ascii.eqb Bool.eqb].
      rewrite !forallb_app, !forallb_accepted_map.
      destruct (PrimFloat.ltb 0 p); cbn [forallb andb];
        rewrite ?forallb_accepted_map, ?forallb_const_true; reflexivity. }
    rewrite Hsame. clear Hsame.
    destruct (forallb _ _); split; intros (c & Hc);
      try discriminate; eexists; reflexivity.
  - intros c_z c_x Hcz Hcx.
    apply built_circuit in Hcz, Hcx. subst c_z c_x.
    split; [apply skeleton_operations |].
    now rewrite !measured_operations.
Qed.

Lemma basis_skeleton_witness :
  RepetitionCode_init 3 "z" = Ok (mkRepetitionCode 3 3 2 "z") /\
  RepetitionCode_init 3 "x" = Ok (mkRepetitionCode 3 3 2 "x") /\
  exists c_z c_x,
    create_syndrome_measurement_circuit probability_in_unit_interval
      (mkRepetitionCode 3 3 2 "z") 0.125 0.25 = Ok c_z /\
    create_syndrome_measurement_circuit probability_in_unit_interval
      (mkRepetitionCode 3 3 2 "x") 0.125 0.25 = Ok c_x /\
    map as_bit_flip (without_hadamards c_x) = c_z.
Proof.
  split; [reflexivity | split; [reflexivity |]].
  do 2 eexists. split; [vm_compute; reflexivity |].
  split; [vm_compute; reflexivity |].
  match goal with
  | |- map as_bit_flip (without_hadamards ?cx) = ?cz =>
      exact (proj1 (proj2 (basis_skeleton probability_in_unit_interval 3
                             0.125%float 0.25%float _ _ eq_refl eq_refl)
                      cz cx eq_refl eq_refl))
  end.
Defined.

(** [decode_samples] takes any distance and any row without raising.
    With a distance of at least 1 the data part is what follows the first
    [distance - 1] entries, empty on a row that short, which then decodes
    to 0; with a distance of 0 or less the negative slice bound counts
    from the end and the data part is the last [1 - distance] entries of
    the row. *)
Theorem row_split_edges :
  forall (d : Z) (row : list Z),
    (1 <= d ->
     len (slice_from (d - 1) row) = Z.max 0 (len row - (d - 1)) /\
     (len row <= d - 1 -> decode_row d row = 0)) /\
    (d <= 0 ->
     len (slice_from (d - 1) row) = Z.min (1 - d) (len row) /\
     slice_from (d - 1) row =
     skipn (List.length row - Z.to_nat (1 - d)) row).
Proof.
  intros d row. unfold slice_from, slice_to, slice_bound.
  split; intros Hd.
  - destruct (Z.ltb_spec (d - 1) 0); [lia |].
    split.
    + unfold len. rewrite length_skipn. lia.
    + intros Hshort. unfold decode_row, slice_from, slice_bound.
      destruct (Z.ltb_spec (d - 1) 0); [lia |].
      rewrite skipn_all2 by (unfold len in *; lia). reflexivity.
  - destruct (Z.ltb_spec (d - 1) 0); [| lia].
    split.
    + unfold len. rewrite length_skipn. lia.
    + f_equal. unfold len. lia.
Qed.

Lemma row_split_edges_witness :
  1 <= 3 /\ len [1; 1] <= 3 - 1 /\ decode_row 3 [1; 1] = 0 /\
  0 <= 0 /\ slice_from (0 - 1) [0; 0; 1] = [1].
Proof.
  assert (Hd : 1 <= 3) by lia.
  assert (Hshort : len [1; 1] <= 3 - 1) by (vm_compute; discriminate).
  assert (Hz : 0 <= 0) by lia.
  split; [exact Hd | split; [exact Hshort | split]].
  - exact (proj2 (proj1 (row_split_edges 3 [1; 1]) Hd) Hshort).
  - split; [exact Hz |].
    exact (proj2 (proj2 (row_split_edges 0 [0; 0; 1]) Hz)).
Defined.

End SkeletonFacts.
